(** * chatapp: a lobby-based chat backend (main.go)

    The repository holds two variants of the same server.  The first keeps
    lobbies, messages and senders in process-wide variables; the second
    keeps them in a relational database reached through [database/sql].
    Both are embedded here, handler by handler: [Mem] follows the first
    variant, [Sql] the second.  A handler becomes a function from the bound
    request and the current state to the reply written on the gin context
    and the next state. *)

From Stdlib Require Import ZArith Lia Ascii.
From Stdlib Require String.
From stdpp Require Import list gmap strings.

Local Open Scope Z_scope.

(** ** Go values *)

(** [int] on the 64-bit targets the server is built for. *)
Definition max_int : Z := 2 ^ 63 - 1.
Definition min_int : Z := - 2 ^ 63.

(** Two's-complement wrap-around of [int] arithmetic. *)
Definition wrap_int (z : Z) : Z := (z + 2 ^ 63) mod 2 ^ 64 - 2 ^ 63.

(** A slice value as the JSON encoder sees it: the nil slice is encoded as
    [null], a slice made by a literal or by [append] as an array. *)
Inductive slice (A : Type) : Type :=
| nil_slice
| slice_of (elems : list A).
Arguments nil_slice {A}.
Arguments slice_of {A} elems.

(** [append(s, x)] on a slice with elements [s].  [len] is an [int]: when the
    slice already holds [max_int] elements the new length overflows and the
    runtime panics ("growslice: len out of range"). *)
Definition go_append {A : Type} (s : list A) (x : A) : option (list A) :=
  if Z.of_nat (length s) <? max_int then Some (s ++ [x]) else None.

(** ** Data model *)

Module message.
Record t := mk {
  Id : Z;
  LobbyId : string;
  SenderName : string;
  MessageString : string;
  Timestamp : Z
}.
End message.

Module sender.
Record t := mk {
  Username : string;
  LobbyId : string;
  IsTyping : bool
}.
End sender.

Module lobbyData.
Record t := mk {
  Messages : slice message.t;
  Senders : slice sender.t;
  Id : string
}.
(** The zero value [lobbyData{}]. *)
Definition zero : t := mk nil_slice nil_slice "".
End lobbyData.

(** A sender is identified by its name and its lobby. *)
Definition sender_key (s : sender.t) : string * string :=
  (sender.Username s, sender.LobbyId s).

(** The sender records held for a (name, lobby) pair. *)
Definition records_for (name lobbyId : string) (snds : list sender.t)
  : list sender.t :=
  filter (fun s => sender_key s = (name, lobbyId)) snds.

(** ** Replies *)

Definition StatusOK : Z := 200.
Definition StatusCreated : Z := 201.
Definition StatusBadRequest : Z := 400.
Definition StatusNotFound : Z := 404.
Definition StatusInternalServerError : Z := 500.

(** What a handler hands to [c.JSON] / [c.IndentedJSON]. *)
Inductive payload : Type :=
| H_message (text : string)          (* gin.H{"message": text} *)
| J_lobbyData (d : lobbyData.t)
| J_string (s : string)
| J_bool (b : bool)
| J_empty.                           (* struct{}{} *)

Inductive reply : Type :=
| JSON (code : Z) (obj : payload)
| Panicked.                          (* the handler panicked before writing *)

(** ** Random lobby ids *)

Definition LOBBY_ID_LENGTH : nat := 6.

Definition letters : list ascii :=
  String.list_ascii_of_string "abcdefghijklmnopqrstuvwxyz".

(** The global [math/rand] source, as the stream of raw values behind the
    successive [rand.Intn] calls; [Intn src k n] is the [k]-th call. *)
Definition rand_source := nat -> nat.

Definition Intn (src : rand_source) (k : nat) (n : nat) : nat :=
  (src k mod n)%nat.

(** [randSeq n], started at call number [k] of the source: the string and
    the number of the next call. *)
Fixpoint randSeq_runes (src : rand_source) (k n : nat) : list ascii :=
  match n with
  | O => []
  | S n' =>
      nth (Intn src k (length letters)) letters "a"%char
        :: randSeq_runes src (S k) n'
  end.

Definition randSeq (src : rand_source) (k n : nat) : string * nat :=
  (String.string_of_list_ascii (randSeq_runes src k n), (k + n)%nat).

(** * The in-memory variant *)

Module Mem.

(** The package-level variables. *)
Record store := mkStore {
  messages : list message.t;
  senders : list sender.t;
  lobbies : gmap string bool;
  nextMessageId : Z
}.

Definition init : store := mkStore [] [] ∅ 1.

Definition doesLobbyExist (st : store) (id : string) : bool :=
  match lobbies st !! id with
  | Some _ => true
  | None => false
  end.

(** The two [range] loops of [constructLobbyData].  The slices they build
    are never longer than the ones they read, so their [append]s cannot
    overflow. *)
Definition includeMsgs (id : string) (msgs : list message.t)
  : list message.t :=
  foldl (fun included m =>
           if decide (message.LobbyId m = id) then included ++ [m]
           else included)
        [] msgs.

Definition includeSenders (id : string) (snds : list sender.t)
  : list sender.t :=
  foldl (fun included s =>
           if decide (sender.LobbyId s = id) then included ++ [s]
           else included)
        [] snds.

Definition constructLobbyData (st : store) (id : string)
  : lobbyData.t * option string :=
  if negb (doesLobbyExist st id) then
    (lobbyData.zero, Some "lobby not found")
  else
    let includedMsgs := includeMsgs id (messages st) in
    let includedSenders := includeSenders id (senders st) in
    (lobbyData.mk (slice_of includedMsgs) (slice_of includedSenders) id, None).

Definition fetchLobbyData (id : string) (st : store) : reply * store :=
  match constructLobbyData st id with
  | (_, Some err) => (JSON StatusNotFound (H_message err), st)
  | (result, None) => (JSON StatusOK (J_lobbyData result), st)
  end.

(** [postMessage].  [body] is what [c.BindJSON] produced ([None] when it
    failed) and [now] the value of [time.Now().Unix()]. *)
Definition postMessage (now : Z) (body : option message.t) (st : store)
  : reply * store :=
  match body with
  | None => (JSON StatusBadRequest (H_message "Message was invalid!"), st)
  | Some msg =>
      if negb (doesLobbyExist st (message.LobbyId msg)) then
        (JSON StatusBadRequest
              (H_message "Message did not belong to a lobby!"), st)
      else
        let msg := message.mk (nextMessageId st) (message.LobbyId msg)
                     (message.SenderName msg) (message.MessageString msg)
                     now in
        let st := mkStore (messages st) (senders st) (lobbies st)
                    (wrap_int (nextMessageId st + 1)) in
        match go_append (messages st) msg with
        | None => (Panicked, st)
        | Some msgs =>
            let st := mkStore msgs (senders st) (lobbies st)
                        (nextMessageId st) in
            match constructLobbyData st (message.LobbyId msg) with
            | (_, Some err) => (JSON StatusBadRequest (H_message err), st)
            | (lobbyData, None) =>
                (JSON StatusCreated (J_lobbyData lobbyData), st)
            end
        end
  end.

(** The retry loop of [createLobby],
    [for doesLobbyExist(id) && attempts > 0 { id = randSeq(...); attempts -= 1 }]:
    [id] is the current candidate, [k] the position in the random source,
    [attempts] the remaining budget (it starts at 10 and only counts down,
    so a [nat] holds it).  The loop is left when [attempts] is 0 or [id] is
    free. *)
Fixpoint createLobby_loop (st : store) (src : rand_source)
    (attempts : nat) (id : string) (k : nat) : string * nat :=
  match attempts with
  | O => (id, attempts)
  | S attempts' =>
      if doesLobbyExist st id then
        let (id', k') := randSeq src k LOBBY_ID_LENGTH in
        createLobby_loop st src attempts' id' k'
      else (id, attempts)
  end.

Definition createLobby (src : rand_source) (st : store) : reply * store :=
  let (id, k) := randSeq src 0 LOBBY_ID_LENGTH in
  let (id, attempts) := createLobby_loop st src 10 id k in
  if (attempts =? 0)%nat then
    (JSON StatusInternalServerError
          (H_message "Failed to generate unique id string!"), st)
  else
    (JSON StatusCreated (J_string id),
     mkStore (messages st) (senders st) (<[id := true]> (lobbies st))
             (nextMessageId st)).

(** The [range] loop of [enterLobby] that decides whether to add. *)
Definition enterLobby_add (enterReq : sender.t) (snds : list sender.t)
  : bool :=
  foldl (fun add s =>
           if decide (sender.LobbyId s = sender.LobbyId enterReq
                      /\ sender.Username s = sender.Username enterReq)
           then false else add)
        true snds.

Definition enterLobby (body : option sender.t) (st : store)
  : reply * store :=
  match body with
  | None => (JSON StatusBadRequest (H_message "Could not parse request!"), st)
  | Some enterReq =>
      if negb (doesLobbyExist st (sender.LobbyId enterReq)) then
        (JSON StatusBadRequest (H_message "Lobby does not exist!"), st)
      else
        let appended :=
          if enterLobby_add enterReq (senders st) then
            go_append (senders st)
              (sender.mk (sender.Username enterReq)
                         (sender.LobbyId enterReq) false)
          else Some (senders st) in
        match appended with
        | None => (Panicked, st)
        | Some snds =>
            let st := mkStore (messages st) snds (lobbies st)
                        (nextMessageId st) in
            match constructLobbyData st (sender.LobbyId enterReq) with
            | (_, Some err) => (JSON StatusBadRequest (H_message err), st)
            | (result, None) => (JSON StatusOK (J_lobbyData result), st)
            end
        end
  end.

Definition lobbyExists (id : string) (st : store) : reply * store :=
  if negb (doesLobbyExist st id) then (JSON StatusOK (J_bool false), st)
  else (JSON StatusOK (J_bool true), st).

(** The scan of [updateTyping]:
    [for i := 0; i < len(senders); { if ... { ...; break } }].
    The [for] clause has no post statement and the body never assigns [i],
    so an iteration that does not [break] is followed by an iteration at the
    same [i].  [fuel] bounds the number of iterations that are run; [None]
    means the loop was still running when it was used up. *)
Fixpoint updateTyping_scan (fuel : nat) (request : sender.t)
    (snds : list sender.t) (i : nat) : option (list sender.t * bool) :=
  match fuel with
  | O => None
  | S fuel' =>
      match snds !! i with
      | None => Some (snds, false)               (* i < len(senders) fails *)
      | Some s =>
          if decide (sender.Username s = sender.Username request
                     /\ sender.LobbyId s = sender.LobbyId request)
          then
            Some (<[i := sender.mk (sender.Username s) (sender.LobbyId s)
                           (sender.IsTyping request)]> snds, true)
          else updateTyping_scan fuel' request snds i
      end
  end.

Definition updateTyping (fuel : nat) (body : option sender.t) (st : store)
  : option (reply * store) :=
  match body with
  | None =>
      Some (JSON StatusBadRequest
                 (H_message "Failed to parse request body!"), st)
  | Some request =>
      match updateTyping_scan fuel request (senders st) 0 with
      | None => None
      | Some (snds, found) =>
          let st := mkStore (messages st) snds (lobbies st)
                      (nextMessageId st) in
          if found then Some (JSON StatusOK J_empty, st)
          else
            Some (JSON StatusNotFound
                       (H_message "Could not find sender to update!"), st)
      end
  end.

(** ** Histories of the server

    One request as it reaches a handler, with what the handler reads from
    its environment: the clock for [postMessage], the random source for
    [createLobby]. *)
Inductive request : Type :=
| FetchLobbyData (id : string)
| PostMessage (now : Z) (body : option message.t)
| LobbyExists (id : string)
| CreateLobby (src : rand_source)
| EnterLobby (body : option sender.t)
| UpdateTyping (body : option sender.t).

Definition handle (fuel : nat) (rq : request) (st : store)
  : option (reply * store) :=
  match rq with
  | FetchLobbyData id => Some (fetchLobbyData id st)
  | PostMessage now body => Some (postMessage now body st)
  | LobbyExists id => Some (lobbyExists id st)
  | CreateLobby src => Some (createLobby src st)
  | EnterLobby body => Some (enterLobby body st)
  | UpdateTyping body => updateTyping fuel body st
  end.

(** The requests of [rqs] served one after the other, each to completion. *)
Fixpoint run (fuel : nat) (rqs : list request) (st : store) : option store :=
  match rqs with
  | [] => Some st
  | rq :: rqs' =>
      match handle fuel rq st with
      | None => None
      | Some (_, st') => run fuel rqs' st'
      end
  end.

Definition reaches (st st' : store) : Prop :=
  exists fuel rqs, run fuel rqs st = Some st'.

(** The stores the server can be in: those a history leads to from the
    initial values of the package-level variables. *)
Definition reachable (st : store) : Prop := reaches init st.

(** ** Properties of stores *)

(** The test of the scan of [updateTyping], as a proposition. *)
Definition names (request s : sender.t) : Prop :=
  sender.Username s = sender.Username request
  /\ sender.LobbyId s = sender.LobbyId request.

Definition unique_senders (st : store) : Prop :=
  NoDup (sender_key <$> senders st).

(** Stored message ids are 1, 2, 3, ... in the order of the slice. *)
Definition ids_in_sequence (st : store) : Prop :=
  message.Id <$> messages st = seqZ 1 (Z.of_nat (length (messages st))).

(** While the slice can still grow, the counter is one past its length. *)
Definition counter_in_step (st : store) : Prop :=
  Z.of_nat (length (messages st)) < max_int ->
  nextMessageId st = Z.of_nat (length (messages st)) + 1.

(** The message [postMessage] stores for a request body. *)
Definition posted (st : store) (now : Z) (msg : message.t) : message.t :=
  message.mk (nextMessageId st) (message.LobbyId msg)
             (message.SenderName msg) (message.MessageString msg) now.

(** The ways in which the handlers change the store. *)
Inductive effect (st : store) : store -> Prop :=
| no_effect : effect st st
| lobby_created id :
    lobbies st !! id = None ->
    effect st (mkStore (messages st) (senders st)
                       (<[id := true]> (lobbies st)) (nextMessageId st))
| message_posted m :
    is_Some (lobbies st !! message.LobbyId m) ->
    message.Id m = nextMessageId st ->
    effect st (mkStore (messages st ++ [m]) (senders st) (lobbies st)
                       (wrap_int (nextMessageId st + 1)))
| counter_skipped :
    max_int <= Z.of_nat (length (messages st)) ->
    effect st (mkStore (messages st) (senders st) (lobbies st)
                       (wrap_int (nextMessageId st + 1)))
| sender_joined name lobbyId :
    is_Some (lobbies st !! lobbyId) ->
    records_for name lobbyId (senders st) = [] ->
    effect st (mkStore (messages st)
                       (senders st ++ [sender.mk name lobbyId false])
                       (lobbies st) (nextMessageId st))
| flag_set i s isTyping :
    senders st !! i = Some s ->
    effect st (mkStore (messages st)
                       (<[i := sender.mk (sender.Username s)
                                         (sender.LobbyId s) isTyping]>
                          (senders st))
                       (lobbies st) (nextMessageId st)).

(** Every stored message and sender belongs to a lobby that exists. *)
Definition refs_resolve (st : store) : Prop :=
  (forall m, m ∈ messages st -> is_Some (lobbies st !! message.LobbyId m))
  /\ (forall s, s ∈ senders st -> is_Some (lobbies st !! sender.LobbyId s)).

End Mem.

(** * The database variant *)

Module Sql.

(** ** The database

    The three tables, each as its rows in insertion order.  The handlers
    never delete a row. *)
Record database := mkDb {
  lobbies : list string;            (* lobbies(id) *)
  message : list message.t;         (* message(id, lobbyId, senderName,
                                       messageString, timestamp) *)
  sender : list sender.t;           (* sender(name, lobbyId, isTyping) *)
  auto_increment : Z                (* next value of message.id *)
}.

(** What the process sees of the database: the tables, and for each call of
    [database/sql] made so far or still to come whether it fails, and with
    which error text. *)
Record world := mkWorld {
  db : database;
  faults : nat -> option string;
  calls : nat
}.

Definition empty_db : database := mkDb [] [] [] 1.

(** A world whose database answers every call. *)
Definition healthy (w : world) : Prop := forall k, faults w k = None.

(** The world after [n] more calls that left the tables alone. *)
Definition after_calls (n : nat) (w : world) : world :=
  mkWorld (db w) (faults w) (n + calls w).

(** ** Code that talks to the database *)

Definition M (A : Type) : Type := world -> A * world.

#[local] Instance M_ret : MRet M := fun A a w => (a, w).

#[local] Instance M_bind : MBind M :=
  fun A B f m w => let (a, w') := m w in f a w'.

(** One call of [db.Exec], [db.Query] or [db.QueryRow] followed by its
    [Scan]: the statement [stmt] runs on the tables unless the call is
    scheduled to fail. *)
Definition call {A : Type} (stmt : database -> A * database)
  : M (A + string) :=
  fun w =>
    match faults w (calls w) with
    | Some err => (inr err, mkWorld (db w) (faults w) (S (calls w)))
    | None =>
        let (a, d) := stmt (db w) in
        (inl a, mkWorld d (faults w) (S (calls w)))
    end.

(** ** The statements *)

(** [SELECT COUNT( * ) FROM lobbies WHERE id = ?] *)
Definition count_lobbies (id : string) (d : database) : Z * database :=
  (Z.of_nat (length (filter (fun l => l = id) (lobbies d))), d).

(** [SELECT * FROM message WHERE lobbyId = ?] *)
Definition select_message (lobbyId : string) (d : database)
  : list message.t * database :=
  (filter (fun m => message.LobbyId m = lobbyId) (message d), d).

(** [SELECT * FROM sender WHERE lobbyId = ?] *)
Definition select_sender (lobbyId : string) (d : database)
  : list sender.t * database :=
  (filter (fun s => sender.LobbyId s = lobbyId) (sender d), d).

(** Modelled from the spec: the table definitions are not part of the
    sources.  The spec has message ids assigned at insertion, unique and
    monotonically increasing, so [id] is an auto-increment column.

    [INSERT INTO message (lobbyId, senderName, messageString, timestamp)
     VALUES (?, ?, ?, ?)] *)
Definition insert_message (lobbyId senderName messageString : string)
    (timestamp : Z) (d : database) : unit * database :=
  (tt,
   mkDb (lobbies d)
        (message d ++ [message.mk (auto_increment d) lobbyId senderName
                                  messageString timestamp])
        (sender d)
        (auto_increment d + 1)).

(** [INSERT INTO lobbies (id) VALUES (?)] *)
Definition insert_lobbies (id : string) (d : database) : unit * database :=
  (tt, mkDb (lobbies d ++ [id]) (message d) (sender d) (auto_increment d)).

(** [SELECT COUNT( * ) FROM sender WHERE lobbyId = ? AND name = ?] *)
Definition count_sender (lobbyId name : string) (d : database)
  : Z * database :=
  (Z.of_nat
     (length (filter (fun s => sender.LobbyId s = lobbyId
                               /\ sender.Username s = name) (sender d))),
   d).

(** [INSERT INTO sender (name, lobbyId, isTyping) VALUES (?, ?, ?)] *)
Definition insert_sender (name lobbyId : string) (isTyping : bool)
    (d : database) : unit * database :=
  (tt, mkDb (lobbies d) (message d)
            (sender d ++ [sender.mk name lobbyId isTyping])
            (auto_increment d)).

(** [UPDATE sender SET isTyping = ? WHERE lobbyId = ? AND name = ?]:
    every matching row is rewritten; matching no row is not an error. *)
Definition update_sender (isTyping : bool) (lobbyId name : string)
    (d : database) : unit * database :=
  (tt,
   mkDb (lobbies d) (message d)
        (map (fun s =>
                if decide (sender.LobbyId s = lobbyId
                           /\ sender.Username s = name)
                then sender.mk (sender.Username s) (sender.LobbyId s) isTyping
                else s)
             (sender d))
        (auto_increment d)).

(** ** The program *)

Definition MAX_MSG_LEN : nat := 512.
Definition MAX_USERNAME_LEN : nat := 32.

Definition doesLobbyExist (id : string) : M bool :=
  r ← call (count_lobbies id);
  match r with
  | inr _ => mret false
  | inl val => if val =? 0 then mret false else mret true
  end.

(** [getMessagesFor] and [getSendersFor] start from an empty slice literal
    and append every row of the answer.  A failure while the rows are read
    is part of the failure of the call. *)
Definition getMessagesFor (lobbyId : string)
  : M (slice message.t * option string) :=
  r ← call (select_message lobbyId);
  match r with
  | inr err => mret (nil_slice, Some err)
  | inl rows => mret (slice_of rows, None)
  end.

Definition getSendersFor (lobbyId : string)
  : M (slice sender.t * option string) :=
  r ← call (select_sender lobbyId);
  match r with
  | inr err => mret (nil_slice, Some err)
  | inl rows => mret (slice_of rows, None)
  end.

Definition constructLobbyData (id : string)
  : M (lobbyData.t * option string) :=
  ok ← doesLobbyExist id;
  if negb ok then mret (lobbyData.zero, Some "lobby not found")
  else
    '(includedMsgs, msgerr) ← getMessagesFor id;
    '(includedSenders, sendererr) ← getSendersFor id;
    match msgerr, sendererr with
    | Some err, _ => mret (lobbyData.zero, Some err)
    | None, Some err => mret (lobbyData.zero, Some err)
    | None, None =>
        mret (lobbyData.mk includedMsgs includedSenders id, None)
    end.

Definition fetchLobbyData (id : string) : M (list reply) :=
  '(result, err) ← constructLobbyData id;
  match err with
  | Some e => mret [JSON StatusNotFound (H_message e)]
  | None => mret [JSON StatusOK (J_lobbyData result)]
  end.

Definition appendMessage (now : Z) (msg : message.t) : M (option string) :=
  r ← call (insert_message (message.LobbyId msg) (message.SenderName msg)
                           (message.MessageString msg) now);
  match r with
  | inr err => mret (Some ("addAlbum: " +:+ err))
  | inl _ => mret None
  end.

(** A handler returns the replies it writes, in order: where the source
    writes an error and does not return, a second reply follows. *)
Definition postMessage (now : Z) (body : option message.t)
  : M (list reply) :=
  match body with
  | None => mret [JSON StatusBadRequest (H_message "Message was invalid!")]
  | Some msg =>
      if (MAX_MSG_LEN <? String.length (message.MessageString msg))%nat then
        mret [JSON StatusBadRequest (H_message "Message is too long!")]
      else
        ok ← doesLobbyExist (message.LobbyId msg);
        if negb ok then
          mret [JSON StatusBadRequest
                     (H_message "Message did not belong to a lobby!")]
        else
          insertErr ← appendMessage now msg;
          let written :=
            match insertErr with
            | Some e => [JSON StatusBadRequest (H_message e)]
            | None => []
            end in
          '(lobbyData, err) ← constructLobbyData (message.LobbyId msg);
          match err with
          | Some e =>
              mret (written ++ [JSON StatusBadRequest (H_message e)])
          | None =>
              mret (written ++ [JSON StatusCreated (J_lobbyData lobbyData)])
          end
  end.

Definition insertLobby (id : string) : M (option string) :=
  r ← call (insert_lobbies id);
  match r with
  | inr err => mret (Some ("insert lobby: " +:+ err))
  | inl _ => mret None
  end.

(** The retry loop.  The condition is [doesLobbyExist(id) && attempts > 0]:
    the query is made first, also when the budget is used up. *)
Fixpoint createLobby_loop (src : rand_source) (attempts : nat)
    (id : string) (k : nat) : M (string * nat) :=
  ok ← doesLobbyExist id;
  match attempts with
  | O => mret (id, attempts)
  | S attempts' =>
      if ok : bool then
        let (id', k') := randSeq src k LOBBY_ID_LENGTH in
        createLobby_loop src attempts' id' k'
      else mret (id, attempts)
  end.

Definition createLobby (src : rand_source) : M (list reply) :=
  let (id, k) := randSeq src 0 LOBBY_ID_LENGTH in
  '(id, attempts) ← createLobby_loop src 10 id k;
  if (attempts =? 0)%nat then
    mret [JSON StatusInternalServerError
               (H_message "Failed to generate unique id string!")]
  else
    err ← insertLobby id;
    let written :=
      match err with
      | Some e => [JSON StatusInternalServerError (H_message e)]
      | None => []
      end in
    mret (written ++ [JSON StatusCreated (J_string id)]).

Definition senderExists (enterReq : sender.t) : M bool :=
  r ← call (count_sender (sender.LobbyId enterReq)
                         (sender.Username enterReq));
  match r with
  | inr _ => mret false
  | inl val => if val =? 0 then mret false else mret true
  end.

Definition addSender (enterReq : sender.t) : M (option string) :=
  present ← senderExists enterReq;
  if present : bool then mret None
  else
    r ← call (insert_sender (sender.Username enterReq)
                            (sender.LobbyId enterReq) false);
    match r with
    | inr err => mret (Some ("insert lobby: " +:+ err))
    | inl _ => mret None
    end.

Definition enterLobby (body : option sender.t) : M (list reply) :=
  match body with
  | None => mret [JSON StatusBadRequest (H_message "Could not parse request!")]
  | Some enterReq =>
      ok ← doesLobbyExist (sender.LobbyId enterReq);
      if negb ok then
        mret [JSON StatusBadRequest (H_message "Lobby does not exist!")]
      else if (MAX_USERNAME_LEN <? String.length (sender.Username enterReq))%nat
      then mret [JSON StatusBadRequest (H_message "Username is too long!")]
      else
        addErr ← addSender enterReq;
        match addErr with
        | Some e => mret [JSON StatusBadRequest (H_message e)]
        | None =>
            '(result, err) ← constructLobbyData (sender.LobbyId enterReq);
            match err with
            | Some e => mret [JSON StatusBadRequest (H_message e)]
            | None => mret [JSON StatusOK (J_lobbyData result)]
            end
        end
  end.

Definition lobbyExists (id : string) : M (list reply) :=
  ok ← doesLobbyExist id;
  if negb ok then mret [JSON StatusOK (J_bool false)]
  else mret [JSON StatusOK (J_bool true)].

Definition setTyping (request : sender.t) : M (option string) :=
  r ← call (update_sender (sender.IsTyping request)
                          (sender.LobbyId request)
                          (sender.Username request));
  match r with
  | inr err => mret (Some err)
  | inl _ => mret None
  end.

Definition updateTyping (body : option sender.t) : M (list reply) :=
  match body with
  | None =>
      mret [JSON StatusBadRequest (H_message "Failed to parse request body!")]
  | Some request =>
      err ← setTyping request;
      match err with
      | None => mret [JSON StatusOK J_empty]
      | Some e => mret [JSON StatusNotFound (H_message e)]
      end
  end.

(** ** Histories of the server *)

Inductive request : Type :=
| FetchLobbyData (id : string)
| PostMessage (now : Z) (body : option message.t)
| LobbyExists (id : string)
| CreateLobby (src : rand_source)
| EnterLobby (body : option sender.t)
| UpdateTyping (body : option sender.t).

Definition handle (rq : request) : M (list reply) :=
  match rq with
  | FetchLobbyData id => fetchLobbyData id
  | PostMessage now body => postMessage now body
  | LobbyExists id => lobbyExists id
  | CreateLobby src => createLobby src
  | EnterLobby body => enterLobby body
  | UpdateTyping body => updateTyping body
  end.

(** The requests of [rqs] served one after the other. *)
Fixpoint run (rqs : list request) (w : world) : world :=
  match rqs with
  | [] => w
  | rq :: rqs' => run rqs' (snd (handle rq w))
  end.

(** The ways in which the handlers change the tables. *)
Inductive effect (d : database) : database -> Prop :=
| no_effect : effect d d
| lobby_inserted id :
    effect d (snd (insert_lobbies id d))
| message_inserted lobbyId senderName messageString timestamp :
    lobbyId ∈ lobbies d ->
    effect d (snd (insert_message lobbyId senderName messageString
                                  timestamp d))
| sender_inserted name lobbyId :
    lobbyId ∈ lobbies d ->
    effect d (snd (insert_sender name lobbyId false d))
| senders_updated isTyping lobbyId name :
    effect d (snd (update_sender isTyping lobbyId name d)).

(** Every message row and sender row names a lobby that has a row. *)
Definition refs_resolve (d : database) : Prop :=
  (forall m, m ∈ message d -> message.LobbyId m ∈ lobbies d)
  /\ (forall s, s ∈ sender d -> sender.LobbyId s ∈ lobbies d).

End Sql.

(** * Results named by the specification

    The handlers answer with a status code and a message; the specification
    names the outcomes.  These predicates say which replies carry which
    name. *)

Definition UnknownLobby (r : reply) : Prop :=
  r = JSON StatusBadRequest (H_message "Message did not belong to a lobby!")
  \/ r = JSON StatusBadRequest (H_message "Lobby does not exist!")
  \/ r = JSON StatusNotFound (H_message "lobby not found").

Definition BodyTooLong (r : reply) : Prop :=
  r = JSON StatusBadRequest (H_message "Message is too long!").

Definition SenderNotFound (r : reply) : Prop :=
  exists text, r = JSON StatusNotFound (H_message text).

Definition GenerationExhausted (r : reply) : Prop :=
  r = JSON StatusInternalServerError
           (H_message "Failed to generate unique id string!").

(** The [n]-th id one call of [createLobby] draws: number 0 before the
    loop, numbers 1 to 10 in its ten iterations. *)
Definition candidate (src : rand_source) (n : nat) : string :=
  fst (randSeq src (n * LOBBY_ID_LENGTH) LOBBY_ID_LENGTH).

(** The first of the candidates number [j], [j+1], ..., [j+n-1] that is
    not taken according to [taken], if there is one. *)
Fixpoint first_free (taken : string -> bool) (src : rand_source)
    (j n : nat) : option nat :=
  match n with
  | O => None
  | S n' =>
      if taken (candidate src j) then first_free taken src (S j) n'
      else Some j
  end.

(** * Sample states

    Small concrete stores, requests and random sources on which the
    statements below are exercised. *)

Module Sample.

Definition one_lobby : gmap string bool := <["aaaaaa" := true]> ∅.

(** The store after one [createLobby] that drew "aaaaaa". *)
Definition st_lobby : Mem.store := Mem.mkStore [] [] one_lobby 1.

Definition alice : sender.t := sender.mk "alice" "aaaaaa" false.
Definition alice_typing : sender.t := sender.mk "alice" "aaaaaa" true.
Definition ghost : sender.t := sender.mk "ghost" "aaaaaa" true.

(** ... and after alice entered that lobby. *)
Definition st_alice : Mem.store := Mem.mkStore [] [alice] one_lobby 1.

(** ... and after alice started typing. *)
Definition st_alice_typing : Mem.store :=
  Mem.mkStore [] [alice_typing] one_lobby 1.

Definition hello : message.t := message.mk 0 "aaaaaa" "alice" "hello" 0.

(** A history with two messages, and the store it leads to. *)
Definition history : list Mem.request :=
  [Mem.CreateLobby (fun _ => 0%nat);
   Mem.EnterLobby (Some alice);
   Mem.PostMessage 100 (Some hello);
   Mem.PostMessage 101 (Some hello)].

Definition st_two_posts : Mem.store :=
  Mem.mkStore [message.mk 1 "aaaaaa" "alice" "hello" 100;
               message.mk 2 "aaaaaa" "alice" "hello" 101]
              [alice] one_lobby 3.

(** A body of 513 bytes. *)
Definition long_text : string :=
  String.string_of_list_ascii (repeat "x"%char 513).
Definition long_hello : message.t :=
  message.mk 0 "aaaaaa" "alice" long_text 0.

(** A source whose every draw is 0: all candidates are "aaaaaa". *)
Definition always_a : rand_source := fun _ => 0%nat.

(** Sixty draws of 0, then draws of 1: ten candidates "aaaaaa", the
    eleventh "bbbbbb". *)
Definition ten_a_then_b : rand_source :=
  fun k => if (k <? 60)%nat then 0%nat else 1%nat.

(** Six draws of 0, then draws of 1: the first candidate is "aaaaaa", the
    following ones "bbbbbb". *)
Definition a_then_b : rand_source :=
  fun k => if (k <? 6)%nat then 0%nat else 1%nat.

(** The same states in the database variant, with a database that
    answers every call. *)
Definition no_faults : nat -> option string := fun _ => None.

Definition w_lobby : Sql.world :=
  Sql.mkWorld (Sql.mkDb ["aaaaaa"] [] [] 1) no_faults 0.

Definition w_alice : Sql.world :=
  Sql.mkWorld (Sql.mkDb ["aaaaaa"] [] [alice] 1) no_faults 0.

(** A database that fails every call, and one that fails the second call
    only. *)
Definition w_down : Sql.world :=
  Sql.mkWorld (Sql.mkDb ["aaaaaa"] [] [alice] 1)
              (fun _ => Some "bad connection") 0.

Definition w_second_fails : Sql.world :=
  Sql.mkWorld (Sql.mkDb ["aaaaaa"] [] [alice] 1)
              (fun k => if (k =? 1)%nat then Some "bad connection" else None)
              0.

(** ... and one that fails the first call only. *)
Definition w_first_fails : Sql.world :=
  Sql.mkWorld (Sql.mkDb ["aaaaaa"] [] [alice] 1)
              (fun k => if (k =? 0)%nat then Some "bad connection" else None)
              0.

Definition long_name : string :=
  String.string_of_list_ascii (repeat "n"%char 33).

End Sample.

(** * Basic facts about the in-memory variant *)

Section MemBasics.
Import Mem.

Lemma includeMsgs_filter id msgs :
  includeMsgs id msgs = filter (fun m => message.LobbyId m = id) msgs.
Proof.
  unfold includeMsgs.
  enough (H : forall acc,
    foldl (fun included m =>
             if decide (message.LobbyId m = id) then included ++ [m]
             else included) acc msgs
    = acc ++ filter (fun m => message.LobbyId m = id) msgs)
    by apply (H []).
  induction msgs as [|m msgs IH]; intros acc; simpl.
  - by rewrite app_nil_r.
  - rewrite IH, filter_cons.
    destruct (decide (message.LobbyId m = id)); [|done].
    by rewrite <- app_assoc.
Qed.

Lemma includeSenders_filter id snds :
  includeSenders id snds = filter (fun s => sender.LobbyId s = id) snds.
Proof.
  unfold includeSenders.
  enough (H : forall acc,
    foldl (fun included s =>
             if decide (sender.LobbyId s = id) then included ++ [s]
             else included) acc snds
    = acc ++ filter (fun s => sender.LobbyId s = id) snds)
    by apply (H []).
  induction snds as [|s snds IH]; intros acc; simpl.
  - by rewrite app_nil_r.
  - rewrite IH, filter_cons.
    destruct (decide (sender.LobbyId s = id)); [|done].
    by rewrite <- app_assoc.
Qed.

Lemma doesLobbyExist_true st id :
  doesLobbyExist st id = true <-> is_Some (lobbies st !! id).
Proof.
  unfold doesLobbyExist.
  destruct (lobbies st !! id); split; intros H; done.
Qed.

Lemma doesLobbyExist_false st id :
  doesLobbyExist st id = false <-> lobbies st !! id = None.
Proof. unfold doesLobbyExist. by destruct (lobbies st !! id). Qed.

(** The view builder on an existing lobby. *)
Lemma constructLobbyData_ok st id :
  doesLobbyExist st id = true ->
  constructLobbyData st id =
    (lobbyData.mk
       (slice_of (filter (fun m => message.LobbyId m = id) (messages st)))
       (slice_of (filter (fun s => sender.LobbyId s = id) (senders st)))
       id, None).
Proof.
  intros H. unfold constructLobbyData. rewrite H. simpl.
  by rewrite includeMsgs_filter, includeSenders_filter.
Qed.

Lemma constructLobbyData_missing st id :
  doesLobbyExist st id = false ->
  constructLobbyData st id = (lobbyData.zero, Some "lobby not found").
Proof. intros H. unfold constructLobbyData. by rewrite H. Qed.

(** The [add] flag of [enterLobby] is cleared exactly when some record
    already carries the pair. *)
Lemma enterLobby_add_records enterReq snds :
  enterLobby_add enterReq snds =
    bool_decide (records_for (sender.Username enterReq)
                             (sender.LobbyId enterReq) snds = []).
Proof.
  unfold enterLobby_add, records_for.
  enough (H : forall add,
    foldl (fun add s =>
             if decide (sender.LobbyId s = sender.LobbyId enterReq
                        /\ sender.Username s = sender.Username enterReq)
             then false else add) add snds
    = add && bool_decide
               (filter (fun s => sender_key s =
                  (sender.Username enterReq, sender.LobbyId enterReq))
                  snds = []))
    by apply (H true).
  induction snds as [|s snds IH]; intros add.
  - by destruct add.
  - cbn [foldl]. rewrite IH, filter_cons.
    destruct (decide (sender.LobbyId s = sender.LobbyId enterReq
                      /\ sender.Username s = sender.Username enterReq))
      as [[Hl Hu]|Hne].
    + rewrite decide_True by (unfold sender_key; congruence).
      rewrite (bool_decide_eq_false_2 (_ :: _ = [])) by done.
      by destruct add.
    + rewrite decide_False; [done|].
      unfold sender_key. intros [= ? ?]. by apply Hne.
Qed.

End MemBasics.

(** * Basic facts about the database variant *)

Section SqlBasics.
Import Sql.

Lemma healthy_after_calls n w : healthy w -> healthy (after_calls n w).
Proof. intros H k. apply H. Qed.

Lemma call_healthy {A} (stmt : database -> A * database) w :
  healthy w ->
  call stmt w =
    (inl (stmt (db w)).1, mkWorld (stmt (db w)).2 (faults w) (S (calls w))).
Proof.
  intros H. unfold call. rewrite H. by destruct (stmt (db w)).
Qed.

Lemma call_fault {A} (stmt : database -> A * database) w err :
  faults w (calls w) = Some err ->
  call stmt w = (inr err, after_calls 1 w).
Proof. intros H. unfold call. by rewrite H. Qed.

Lemma count_zero_filter {A} (P : A -> Prop) `{!forall x, Decision (P x)}
    (l : list A) :
  Z.of_nat (length (filter P l)) = 0 <-> filter P l = [].
Proof.
  destruct (filter P l); simpl; split; intros E; done || lia.
Qed.

Lemma filter_eq_nil_not_elem {A} `{EqDecision A} (x : A) (l : list A) :
  filter (fun y => y = x) l = [] <-> x ∉ l.
Proof.
  split.
  - intros H Hin. by eapply (filter_nil_not_elem_of _ l x).
  - intros H. induction l as [|y l IH]; [done|].
    rewrite filter_cons. apply not_elem_of_cons in H as [Hne Hl].
    rewrite decide_False by done. by apply IH.
Qed.

Lemma doesLobbyExist_healthy id w :
  healthy w ->
  doesLobbyExist id w =
    (bool_decide (id ∈ lobbies (db w)), after_calls 1 w).
Proof.
  intros H. unfold doesLobbyExist, mbind, M_bind.
  rewrite call_healthy by done. simpl.
  destruct (Z.eqb_spec
    (Z.of_nat (length (filter (fun l => l = id) (lobbies (db w))))) 0)
    as [E|E]; rewrite count_zero_filter, filter_eq_nil_not_elem in E.
  - by rewrite bool_decide_eq_false_2.
  - rewrite bool_decide_eq_true_2; [done|]. by apply dec_stable.
Qed.

Lemma constructLobbyData_healthy id w :
  healthy w -> id ∈ lobbies (db w) ->
  constructLobbyData id w =
    (lobbyData.mk
       (slice_of (filter (fun m => message.LobbyId m = id)
                         (message (db w))))
       (slice_of (filter (fun s => sender.LobbyId s = id)
                         (sender (db w))))
       id, None, after_calls 3 w).
Proof.
  intros H Hin. unfold constructLobbyData, mbind, M_bind.
  rewrite doesLobbyExist_healthy, bool_decide_eq_true_2 by done. simpl.
  unfold getMessagesFor, getSendersFor, mbind, M_bind.
  rewrite call_healthy by by apply healthy_after_calls. simpl.
  rewrite call_healthy by done. done.
Qed.

End SqlBasics.

(** * Requests against a lobby that does not exist *)

Section UnknownLobbies.
Import Mem.

Lemma postMessage_unknown st now msg :
  lobbies st !! message.LobbyId msg = None ->
  postMessage now (Some msg) st =
    (JSON StatusBadRequest
          (H_message "Message did not belong to a lobby!"), st).
Proof.
  intros H. apply doesLobbyExist_false in H.
  unfold postMessage. by rewrite H.
Qed.

Lemma enterLobby_unknown st enterReq :
  lobbies st !! sender.LobbyId enterReq = None ->
  enterLobby (Some enterReq) st =
    (JSON StatusBadRequest (H_message "Lobby does not exist!"), st).
Proof.
  intros H. apply doesLobbyExist_false in H.
  unfold enterLobby. by rewrite H.
Qed.

(** The database variant, for comparison: a lobby id without a row is
    refused by both handlers, whether or not the database answers, and the
    tables stay as they are.  [postMessage] looks at the length of the body
    first, so this is its answer for bodies within the limit. *)
Lemma sql_doesLobbyExist_missing id w :
  id ∉ Sql.lobbies (Sql.db w) ->
  Sql.doesLobbyExist id w = (false, Sql.after_calls 1 w).
Proof.
  intros Hid. unfold Sql.doesLobbyExist, mbind, Sql.M_bind, Sql.call.
  destruct (Sql.faults w (Sql.calls w)) as [err|]; [done|]. simpl.
  apply filter_eq_nil_not_elem in Hid. by rewrite Hid.
Qed.

Lemma sql_unknown_lobby w id :
  id ∉ Sql.lobbies (Sql.db w) ->
  (forall now msg,
     message.LobbyId msg = id ->
     (String.length (message.MessageString msg) <= Sql.MAX_MSG_LEN)%nat ->
     Sql.postMessage now (Some msg) w =
       ([JSON StatusBadRequest
              (H_message "Message did not belong to a lobby!")],
        Sql.after_calls 1 w))
  /\ (forall enterReq,
        sender.LobbyId enterReq = id ->
        Sql.enterLobby (Some enterReq) w =
          ([JSON StatusBadRequest (H_message "Lobby does not exist!")],
           Sql.after_calls 1 w)).
Proof.
  intros Hid. split.
  - intros now msg <- Hlen. unfold Sql.postMessage.
    destruct (Nat.ltb_spec Sql.MAX_MSG_LEN
                (String.length (message.MessageString msg))); [lia|].
    unfold mbind, Sql.M_bind. by rewrite sql_doesLobbyExist_missing.
  - intros enterReq <-. unfold Sql.enterLobby, mbind, Sql.M_bind.
    by rewrite sql_doesLobbyExist_missing.
Qed.

(** C8.  When the lobby id of a request is not a key of [lobbies],
    [postMessage] and [enterLobby] answer with UnknownLobby and return the
    store they were given: [messages], [senders], [lobbies] and
    [nextMessageId] are all as before, so no message and no sender was
    added. *)
Theorem unknown_lobby_leaves_store (st : store) (id : string) :
  lobbies st !! id = None ->
  (forall now msg, message.LobbyId msg = id ->
     exists r, postMessage now (Some msg) st = (r, st) /\ UnknownLobby r)
  /\ (forall enterReq, sender.LobbyId enterReq = id ->
        exists r, enterLobby (Some enterReq) st = (r, st)
                  /\ UnknownLobby r).
Proof.
  intros Hid. split.
  - intros now msg <-. eexists. split.
    + by apply postMessage_unknown.
    + by left.
  - intros enterReq <-. eexists. split.
    + by apply enterLobby_unknown.
    + right. by left.
Qed.

Lemma unknown_lobby_leaves_store_witness :
  lobbies Sample.st_alice !! "zzzzzz" = None
  /\ (exists r, postMessage 7 (Some (message.mk 0 "zzzzzz" "bob" "hi" 0))
                  Sample.st_alice = (r, Sample.st_alice)
                /\ UnknownLobby r)
  /\ (exists r, enterLobby (Some (sender.mk "bob" "zzzzzz" false))
                  Sample.st_alice = (r, Sample.st_alice)
                /\ UnknownLobby r).
Proof.
  assert (H : lobbies Sample.st_alice !! "zzzzzz" = None)
    by (vm_compute; reflexivity).
  split; [exact H|].
  destruct (unknown_lobby_leaves_store Sample.st_alice "zzzzzz" H)
    as [Hpost Henter].
  split.
  - apply Hpost. reflexivity.
  - apply Henter. reflexivity.
Defined.

End UnknownLobbies.

(** * Fetching the view of a lobby *)

Section Views.

Lemma mem_fetchLobbyData_ok st id :
  is_Some (Mem.lobbies st !! id) ->
  Mem.fetchLobbyData id st =
    (JSON StatusOK
       (J_lobbyData
          (lobbyData.mk
             (slice_of (filter (fun m => message.LobbyId m = id)
                               (Mem.messages st)))
             (slice_of (filter (fun s => sender.LobbyId s = id)
                               (Mem.senders st)))
             id)),
     st).
Proof.
  intros H. apply doesLobbyExist_true in H.
  unfold Mem.fetchLobbyData. by rewrite constructLobbyData_ok.
Qed.

Lemma sql_fetchLobbyData_ok w id :
  Sql.healthy w -> id ∈ Sql.lobbies (Sql.db w) ->
  Sql.fetchLobbyData id w =
    ([JSON StatusOK
        (J_lobbyData
           (lobbyData.mk
              (slice_of (filter (fun m => message.LobbyId m = id)
                                (Sql.message (Sql.db w))))
              (slice_of (filter (fun s => sender.LobbyId s = id)
                                (Sql.sender (Sql.db w))))
              id))],
     Sql.after_calls 3 w).
Proof.
  intros H Hin. unfold Sql.fetchLobbyData, mbind, Sql.M_bind.
  by rewrite constructLobbyData_healthy.
Qed.

Lemma filter_none_nil {A} (P : A -> Prop) `{!forall x, Decision (P x)}
    (l : list A) :
  (forall x, x ∈ l -> ~ P x) -> filter P l = [].
Proof.
  intros HP. induction l as [|x l IH]; [done|].
  rewrite filter_cons, decide_False.
  - apply IH. intros y Hy. apply HP. by right.
  - apply HP. by left.
Qed.

(** C9.  [fetchLobbyData] on a lobby that exists answers 200 with a view
    whose [Id] is the requested id and whose [Messages] and [Senders] are
    the stored messages and senders of that lobby, in stored order, and
    nothing else; both are slices made by the handler, never the nil
    slice, so a lobby without messages and senders gets two empty arrays
    and not [null].  This holds in the in-memory variant for every store
    and in the database variant whenever the database answers. *)
Theorem fetch_view_of_existing_lobby :
  (forall st id, is_Some (Mem.lobbies st !! id) ->
     exists msgs snds,
       Mem.fetchLobbyData id st =
         (JSON StatusOK
            (J_lobbyData (lobbyData.mk (slice_of msgs) (slice_of snds) id)),
          st)
       /\ msgs = filter (fun m => message.LobbyId m = id) (Mem.messages st)
       /\ snds = filter (fun s => sender.LobbyId s = id) (Mem.senders st)
       /\ (forall m, m ∈ msgs <->
                     m ∈ Mem.messages st /\ message.LobbyId m = id)
       /\ (forall s, s ∈ snds <->
                     s ∈ Mem.senders st /\ sender.LobbyId s = id)
       /\ ((forall m, m ∈ Mem.messages st -> message.LobbyId m <> id) ->
           msgs = [])
       /\ ((forall s, s ∈ Mem.senders st -> sender.LobbyId s <> id) ->
           snds = []))
  /\ (forall w id, Sql.healthy w -> id ∈ Sql.lobbies (Sql.db w) ->
        exists msgs snds,
          Sql.fetchLobbyData id w =
            ([JSON StatusOK
                (J_lobbyData
                   (lobbyData.mk (slice_of msgs) (slice_of snds) id))],
             Sql.after_calls 3 w)
          /\ msgs = filter (fun m => message.LobbyId m = id)
                           (Sql.message (Sql.db w))
          /\ snds = filter (fun s => sender.LobbyId s = id)
                           (Sql.sender (Sql.db w))
          /\ (forall m, m ∈ msgs <->
                 m ∈ Sql.message (Sql.db w) /\ message.LobbyId m = id)
          /\ (forall s, s ∈ snds <->
                 s ∈ Sql.sender (Sql.db w) /\ sender.LobbyId s = id)
          /\ ((forall m, m ∈ Sql.message (Sql.db w) ->
                         message.LobbyId m <> id) -> msgs = [])
          /\ ((forall s, s ∈ Sql.sender (Sql.db w) ->
                         sender.LobbyId s <> id) -> snds = [])).
Proof.
  split.
  - intros st id H. do 2 eexists.
    split; [by apply mem_fetchLobbyData_ok|].
    do 2 (split; [reflexivity|]).
    do 2 (split; [intros x; rewrite list_elem_of_filter; tauto|]).
    split; apply filter_none_nil.
  - intros w id H Hin. do 2 eexists.
    split; [by apply sql_fetchLobbyData_ok|].
    do 2 (split; [reflexivity|]).
    do 2 (split; [intros x; rewrite list_elem_of_filter; tauto|]).
    split; apply filter_none_nil.
Qed.

Lemma fetch_view_of_existing_lobby_witness :
  Mem.fetchLobbyData "aaaaaa" Sample.st_lobby =
    (JSON StatusOK
       (J_lobbyData (lobbyData.mk (slice_of []) (slice_of []) "aaaaaa")),
     Sample.st_lobby)
  /\ Sql.fetchLobbyData "aaaaaa" Sample.w_lobby =
       ([JSON StatusOK
           (J_lobbyData
              (lobbyData.mk (slice_of []) (slice_of []) "aaaaaa"))],
        Sql.after_calls 3 Sample.w_lobby).
Proof.
  destruct fetch_view_of_existing_lobby as [Hmem Hsql].
  split.
  - destruct (Hmem Sample.st_lobby "aaaaaa")
      as (msgs & snds & Heq & -> & -> & _).
    + vm_compute. eexists. reflexivity.
    + exact Heq.
  - destruct (Hsql Sample.w_lobby "aaaaaa")
      as (msgs & snds & Heq & -> & -> & _).
    + intros k. reflexivity.
    + vm_compute. left.
    + exact Heq.
Defined.

End Views.

(** * Posting a message (in-memory variant) *)

Section Posting.
Import Mem.

(** The store after a successful [postMessage]. *)
Lemma postMessage_created st now msg :
  is_Some (lobbies st !! message.LobbyId msg) ->
  Z.of_nat (length (messages st)) < max_int ->
  postMessage now (Some msg) st =
    (JSON StatusCreated
       (J_lobbyData
          (lobbyData.mk
             (slice_of
                (filter (fun m => message.LobbyId m = message.LobbyId msg)
                        (messages st ++ [posted st now msg])))
             (slice_of
                (filter (fun s => sender.LobbyId s = message.LobbyId msg)
                        (senders st)))
             (message.LobbyId msg))),
     mkStore (messages st ++ [posted st now msg]) (senders st) (lobbies st)
             (wrap_int (nextMessageId st + 1))).
Proof.
  intros Hl Hlen. apply doesLobbyExist_true in Hl.
  unfold postMessage, go_append. rewrite Hl. simpl.
  destruct (Z.ltb_spec (Z.of_nat (length (messages st))) max_int); [|lia].
  by rewrite constructLobbyData_ok.
Qed.

(** When the slice is full, [append] panics after the counter was
    advanced. *)
Lemma postMessage_panics st now msg :
  is_Some (lobbies st !! message.LobbyId msg) ->
  max_int <= Z.of_nat (length (messages st)) ->
  postMessage now (Some msg) st =
    (Panicked,
     mkStore (messages st) (senders st) (lobbies st)
             (wrap_int (nextMessageId st + 1))).
Proof.
  intros Hl Hlen. apply doesLobbyExist_true in Hl.
  unfold postMessage, go_append. rewrite Hl. simpl.
  by destruct (Z.ltb_spec (Z.of_nat (length (messages st))) max_int);
    [lia|].
Qed.

(** [postMessage] answers 201 exactly when the body was bound, the lobby
    exists and the slice can grow. *)
Lemma postMessage_created_inv st now body r st' :
  postMessage now body st = (r, st') ->
  (exists obj, r = JSON StatusCreated obj) ->
  exists msg, body = Some msg
    /\ is_Some (lobbies st !! message.LobbyId msg)
    /\ Z.of_nat (length (messages st)) < max_int.
Proof.
  intros Hpost [obj ->]. destruct body as [msg|]; [|by inversion Hpost].
  exists msg. split; [done|].
  destruct (lobbies st !! message.LobbyId msg) as [b|] eqn:Hl.
  - split; [by eexists|].
    destruct (Z.lt_ge_cases (Z.of_nat (length (messages st))) max_int)
      as [|Hfull]; [done|].
    rewrite postMessage_panics in Hpost by (rewrite ?Hl; eauto; lia).
    by inversion Hpost.
  - rewrite postMessage_unknown in Hpost by done. by inversion Hpost.
Qed.

(** C7.  The view in the 201 reply of [postMessage] is the view of the
    message's lobby and holds, as its last message, the message just
    stored: the id taken from [nextMessageId], the lobby id, sender name
    and body of the request, and the time read by the handler.  The same
    message is the last one of [messages] afterwards. *)
Theorem post_view_contains_message
    (st st' : store) (now : Z) (msg : message.t) (r : reply) :
  postMessage now (Some msg) st = (r, st') ->
  (exists obj, r = JSON StatusCreated obj) ->
  exists d msgs,
    r = JSON StatusCreated (J_lobbyData d)
    /\ lobbyData.Id d = message.LobbyId msg
    /\ lobbyData.Messages d = slice_of msgs
    /\ posted st now msg ∈ msgs
    /\ last msgs = Some (posted st now msg)
    /\ (forall m, m ∈ msgs -> message.LobbyId m = message.LobbyId msg)
    /\ last (messages st') = Some (posted st now msg)
    /\ posted st now msg =
         message.mk (nextMessageId st) (message.LobbyId msg)
                    (message.SenderName msg) (message.MessageString msg)
                    now.
Proof.
  intros Hpost Hok.
  destruct (postMessage_created_inv _ _ _ _ _ Hpost Hok)
    as (msg' & [= <-] & Hl & Hlen).
  rewrite postMessage_created in Hpost by done.
  injection Hpost as <- <-.
  eexists _, _. split; [reflexivity|]. simpl.
  split; [done|]. split; [reflexivity|].
  rewrite filter_app, filter_cons, decide_True, filter_nil by done.
  split; [apply elem_of_app; right; by left|].
  split; [by rewrite last_snoc|].
  split.
  - intros m [Hm|Hm]%elem_of_app.
    + by apply list_elem_of_filter in Hm as [? _].
    + by apply list_elem_of_singleton in Hm as ->.
  - split; [by rewrite last_snoc|done].
Qed.

Lemma post_view_contains_message_witness :
  exists d msgs,
    fst (postMessage 1700000000 (Some Sample.hello) Sample.st_alice)
      = JSON StatusCreated (J_lobbyData d)
    /\ lobbyData.Messages d = slice_of msgs
    /\ message.mk 1 "aaaaaa" "alice" "hello" 1700000000 ∈ msgs.
Proof.
  destruct (post_view_contains_message Sample.st_alice
              (snd (postMessage 1700000000 (Some Sample.hello)
                                Sample.st_alice))
              1700000000 Sample.hello
              (fst (postMessage 1700000000 (Some Sample.hello)
                                Sample.st_alice)))
    as (d & msgs & Hr & _ & Hm & Hin & _).
  - vm_compute. reflexivity.
  - vm_compute. eexists. reflexivity.
  - exists d, msgs. split; [exact Hr|]. split; [exact Hm|exact Hin].
Defined.

End Posting.

(** * Updating the typing flag *)

Section Typing.
Import Mem.

Implicit Types (request s : sender.t) (snds : list sender.t).

(** An iteration that finds another sender at [i] is followed by the same
    iteration: no amount of fuel lets the scan finish. *)
Lemma updateTyping_scan_stuck request snds i s :
  snds !! i = Some s -> ~ names request s ->
  forall fuel, updateTyping_scan fuel request snds i = None.
Proof.
  intros Hi Hne fuel. induction fuel as [|fuel IH]; [done|].
  simpl. rewrite Hi. by rewrite decide_False.
Qed.

Lemma updateTyping_scan_past_end request snds i fuel :
  snds !! i = None ->
  updateTyping_scan (S fuel) request snds i = Some (snds, false).
Proof. intros Hi. simpl. by rewrite Hi. Qed.

Lemma updateTyping_scan_hit request snds i s fuel :
  snds !! i = Some s -> names request s ->
  updateTyping_scan (S fuel) request snds i =
    Some (<[i := sender.mk (sender.Username s) (sender.LobbyId s)
                           (sender.IsTyping request)]> snds, true).
Proof. intros Hi Hs. simpl. rewrite Hi. by rewrite decide_True. Qed.

(** What a scan that finishes has done. *)
Lemma updateTyping_scan_inv fuel request snds i snds' found :
  updateTyping_scan fuel request snds i = Some (snds', found) ->
  (found = false /\ snds' = snds /\ snds !! i = None)
  \/ (found = true /\ exists s,
        snds !! i = Some s /\ names request s
        /\ snds' = <[i := sender.mk (sender.Username s) (sender.LobbyId s)
                                    (sender.IsTyping request)]> snds).
Proof.
  induction fuel as [|fuel IH]; [done|]. simpl.
  destruct (snds !! i) as [s|] eqn:Hi.
  - destruct (decide _) as [Hs|Hs]; [|done].
    intros [= <- <-]. right. split; [done|]. by exists s.
  - intros [= <- <-]. by left.
Qed.

(** The handler on the sample store: alice is the only sender, the
    request names ghost. *)
Lemma updateTyping_ghost_stuck fuel :
  updateTyping fuel (Some Sample.ghost) Sample.st_alice = None.
Proof.
  unfold updateTyping.
  rewrite (updateTyping_scan_stuck Sample.ghost _ 0 Sample.alice); try done.
  by intros [[=] _].
Qed.

(** C1.  The scan of [updateTyping] does not complete on every input: on
    the store whose only sender is alice, a request naming ghost runs the
    iteration at index 0 again and again.  Whatever bound is put on the
    number of iterations, the scan is still running when it is reached,
    and so is the handler. *)
Theorem updateTyping_scan_unbounded :
  forall fuel,
    updateTyping_scan fuel Sample.ghost (senders Sample.st_alice) 0 = None
    /\ updateTyping fuel (Some Sample.ghost) Sample.st_alice = None.
Proof.
  intros fuel. split; [|apply updateTyping_ghost_stuck].
  apply (updateTyping_scan_stuck _ _ _ Sample.alice); [done|].
  by intros [[=] _].
Qed.

(** The scan finishes, within one iteration, exactly when the slice is
    empty or its first sender is the one named. *)
Lemma updateTyping_scan_finishes_iff request snds :
  (exists fuel out, updateTyping_scan fuel request snds 0 = Some out)
  <-> snds = [] \/ exists s snds', snds = s :: snds' /\ names request s.
Proof.
  split.
  - intros (fuel & [snds' found] & H).
    destruct snds as [|s snds0]; [by left|right].
    exists s, snds0. split; [done|].
    destruct (decide (names request s)) as [|Hne]; [done|].
    by rewrite (updateTyping_scan_stuck request _ 0 s) in H.
  - intros [->|(s & snds' & -> & Hs)].
    + by exists 1%nat, ([], false).
    + exists 1%nat. eexists. by apply (updateTyping_scan_hit _ _ 0 s).
Qed.

(** C10.  A call of [updateTyping] that answers 200 has changed one thing:
    at one index of [senders] there was a sender with the name and lobby
    id of the request, and that element now has the request's
    [IsTyping], with its [Username] and [LobbyId] as before.  The slice
    has the same length and the same elements at every other index, and
    [messages], [lobbies] and [nextMessageId] are as before. *)
Theorem updateTyping_changes_one_flag
    (fuel : nat) (request : sender.t) (st st' : store) :
  updateTyping fuel (Some request) st = Some (JSON StatusOK J_empty, st') ->
  messages st' = messages st
  /\ lobbies st' = lobbies st
  /\ nextMessageId st' = nextMessageId st
  /\ length (senders st') = length (senders st)
  /\ exists i s,
       senders st !! i = Some s
       /\ sender.Username s = sender.Username request
       /\ sender.LobbyId s = sender.LobbyId request
       /\ senders st' !! i =
            Some (sender.mk (sender.Username s) (sender.LobbyId s)
                            (sender.IsTyping request))
       /\ forall j, j <> i -> senders st' !! j = senders st !! j.
Proof.
  unfold updateTyping.
  destruct (updateTyping_scan fuel request (senders st) 0)
    as [[snds' found]|] eqn:Hscan; [|done].
  apply updateTyping_scan_inv in Hscan
    as [(-> & _ & _)|(-> & s & Hs & [Hu Hl] & ->)]; [done|].
  intros [= <-]. simpl.
  do 3 (split; [done|]). split; [by rewrite length_insert|].
  exists 0%nat, s. do 3 (split; [done|]). split.
  - apply list_lookup_insert_eq. by eapply lookup_lt_Some.
  - intros j Hj. by apply list_lookup_insert_ne.
Qed.

Lemma updateTyping_changes_one_flag_witness :
  senders (Mem.mkStore [] [Sample.alice_typing] Sample.one_lobby 1) !! 0%nat
    = Some Sample.alice_typing
  /\ messages (Mem.mkStore [] [Sample.alice_typing] Sample.one_lobby 1)
       = messages Sample.st_alice.
Proof.
  destruct (updateTyping_changes_one_flag 1 Sample.alice_typing
              Sample.st_alice
              (Mem.mkStore [] [Sample.alice_typing] Sample.one_lobby 1))
    as (Hm & _ & _ & _ & i & s & _ & _ & _ & _ & _).
  - vm_compute. reflexivity.
  - split; [reflexivity|exact Hm].
Defined.

End Typing.

(** * A typing update for a sender that does not exist *)

Section AbsentSender.

(** In-memory variant: a call that returns for an absent sender answers
    404 and returns the store unchanged ... *)
Lemma mem_updateTyping_absent fuel request st r st' :
  records_for (sender.Username request) (sender.LobbyId request)
                  (Mem.senders st) = [] ->
  Mem.updateTyping fuel (Some request) st = Some (r, st') ->
  r = JSON StatusNotFound (H_message "Could not find sender to update!")
  /\ st' = st.
Proof.
  intros Habs. unfold Mem.updateTyping.
  destruct (Mem.updateTyping_scan fuel request (Mem.senders st) 0)
    as [[snds' found]|] eqn:Hscan; [|done].
  apply updateTyping_scan_inv in Hscan
    as [(-> & -> & _)|(-> & s & Hs & [Hu Hl] & _)].
  - intros [= <- <-]. split; [done|]. by destruct st.
  - exfalso. apply list_elem_of_lookup_2 in Hs.
    eapply (filter_nil_not_elem_of _ _ s); [exact Habs| |exact Hs].
    unfold sender_key. by rewrite Hu, Hl.
Qed.

(** ... but it returns only when there is no sender at all. *)
Lemma mem_updateTyping_absent_returns_iff request st :
  records_for (sender.Username request) (sender.LobbyId request)
                  (Mem.senders st) = [] ->
  (exists fuel out, Mem.updateTyping fuel (Some request) st = Some out)
  <-> Mem.senders st = [].
Proof.
  intros Habs. split.
  - intros (fuel & out & H). unfold Mem.updateTyping in H.
    destruct (Mem.updateTyping_scan fuel request (Mem.senders st) 0)
      as [out'|] eqn:Hscan; [|done].
    destruct (proj1 (updateTyping_scan_finishes_iff request (Mem.senders st)))
      as [|(s & snds' & Hst & Hu & Hl)]; [by eauto|done|].
    exfalso. eapply (filter_nil_not_elem_of _ _ s); [exact Habs| |].
    + unfold sender_key. by rewrite Hu, Hl.
    + rewrite Hst. by left.
  - intros Hnil. exists 1%nat. unfold Mem.updateTyping. rewrite Hnil.
    simpl. by eexists.
Qed.

(** Database variant: the [UPDATE] touches no row and reports no error,
    and the handler answers 200. *)
Lemma update_sender_absent isTyping lobbyId name d :
  records_for name lobbyId (Sql.sender d) = [] ->
  Sql.update_sender isTyping lobbyId name d = (tt, d).
Proof.
  intros Habs. unfold Sql.update_sender. f_equal.
  destruct d as [ls ms ss n]; simpl in *. f_equal.
  induction ss as [|s ss IH]; [done|].
  unfold records_for in Habs. rewrite filter_cons in Habs.
  destruct (decide (sender_key s = (name, lobbyId))) as [|Hne];
    [done|].
  simpl. rewrite decide_False.
  - f_equal. by apply IH.
  - intros [Hl Hu]. apply Hne. unfold sender_key. by rewrite Hl, Hu.
Qed.

Lemma sql_updateTyping_healthy request w :
  Sql.healthy w ->
  Sql.updateTyping (Some request) w =
    ([JSON StatusOK J_empty],
     Sql.mkWorld
       (Sql.update_sender (sender.IsTyping request)
          (sender.LobbyId request) (sender.Username request)
          (Sql.db w)).2
       (Sql.faults w) (S (Sql.calls w))).
Proof.
  intros H. unfold Sql.updateTyping, Sql.setTyping, mbind, Sql.M_bind.
  by rewrite call_healthy.
Qed.

Lemma sql_updateTyping_absent request w :
  Sql.healthy w ->
  records_for (sender.Username request) (sender.LobbyId request)
                  (Sql.sender (Sql.db w)) = [] ->
  Sql.updateTyping (Some request) w =
    ([JSON StatusOK J_empty], Sql.after_calls 1 w).
Proof.
  intros H Habs. rewrite sql_updateTyping_healthy by done.
  by rewrite update_sender_absent.
Qed.

(** C3.  What the two variants do with a typing update that names ghost
    when the only sender of the lobby is alice.  In the in-memory variant
    the handler never answers: for every bound on the iterations of its
    scan, the scan is still running.  In the database variant the handler
    answers 200 with an empty object, which is not a SenderNotFound
    reply.  In neither variant is a sender record added. *)
Theorem typing_update_for_absent_sender :
  records_for "ghost" "aaaaaa" (Mem.senders Sample.st_alice) = []
  /\ (forall fuel,
        Mem.updateTyping fuel (Some Sample.ghost) Sample.st_alice = None)
  /\ records_for "ghost" "aaaaaa" (Sql.sender (Sql.db Sample.w_alice))
       = []
  /\ Sql.updateTyping (Some Sample.ghost) Sample.w_alice =
       ([JSON StatusOK J_empty], Sql.after_calls 1 Sample.w_alice)
  /\ ~ SenderNotFound (JSON StatusOK J_empty).
Proof.
  split; [by vm_compute|].
  split; [apply updateTyping_ghost_stuck|].
  split; [by vm_compute|].
  split; [by apply sql_updateTyping_absent|].
  by intros [text [=]].
Qed.

End AbsentSender.

(** * Creating a lobby *)

Section Creating.

Lemma randSeq_candidate src j :
  randSeq src (j * LOBBY_ID_LENGTH) LOBBY_ID_LENGTH =
    (candidate src j, (S j * LOBBY_ID_LENGTH)%nat).
Proof.
  unfold candidate, randSeq. cbn [fst]. f_equal.
  unfold LOBBY_ID_LENGTH. lia.
Qed.

(** What [first_free] finds. *)
Lemma first_free_Some taken src j n i :
  first_free taken src j n = Some i ->
  (j <= i < j + n)%nat
  /\ taken (candidate src i) = false
  /\ forall i', (j <= i' < i)%nat -> taken (candidate src i') = true.
Proof.
  revert j. induction n as [|n IH]; intros j; [done|]. simpl.
  destruct (taken (candidate src j)) eqn:Hj.
  - intros H. apply IH in H as (Hi & Hfree & Hbefore).
    split; [lia|]. split; [done|].
    intros i' Hi'. destruct (decide (i' = j)) as [->|]; [done|].
    apply Hbefore. lia.
  - intros [= <-]. split; [lia|]. split; [done|]. intros i' Hi'. lia.
Qed.

Lemma first_free_None taken src j n :
  first_free taken src j n = None <->
  forall i, (j <= i < j + n)%nat -> taken (candidate src i) = true.
Proof.
  revert j. induction n as [|n IH]; intros j; simpl.
  - split; [intros _ i Hi; lia|done].
  - destruct (taken (candidate src j)) eqn:Hj.
    + rewrite IH. split; intros H i Hi.
      * destruct (decide (i = j)) as [->|]; [done|]. apply H. lia.
      * apply H. lia.
    + split; [done|]. intros H. rewrite H in Hj by lia. done.
Qed.

(** The retry loop, entered with candidate [j] in hand and [n] attempts
    left: it stops at the first of the candidates [j .. j+n-1] that is
    free, and otherwise holds candidate [j+n], unexamined, with no
    attempts left. *)
Lemma mem_createLobby_loop st src n j :
  Mem.createLobby_loop st src n (candidate src j)
                       (S j * LOBBY_ID_LENGTH) =
    match first_free (Mem.doesLobbyExist st) src j n with
    | Some i => (candidate src i, (n - (i - j))%nat)
    | None => (candidate src (j + n), 0%nat)
    end.
Proof.
  revert j. induction n as [|n IH]; intros j;
    cbn [Mem.createLobby_loop first_free].
  - by rewrite Nat.add_0_r.
  - destruct (Mem.doesLobbyExist st (candidate src j)) eqn:Hj.
    + rewrite (randSeq_candidate src (S j)), IH.
      destruct (first_free _ src (S j) n) as [i|] eqn:Hi.
      * apply first_free_Some in Hi as (Hi & _). f_equal. lia.
      * f_equal. f_equal. lia.
    + f_equal. lia.
Qed.

(** [createLobby] as a whole: it succeeds with the first free one of the
    candidates 0 to 9, and fails when these ten are all taken. *)
Lemma mem_createLobby_first_free src st :
  Mem.createLobby src st =
    match first_free (Mem.doesLobbyExist st) src 0 10 with
    | Some i =>
        (JSON StatusCreated (J_string (candidate src i)),
         Mem.mkStore (Mem.messages st) (Mem.senders st)
                     (<[candidate src i := true]> (Mem.lobbies st))
                     (Mem.nextMessageId st))
    | None =>
        (JSON StatusInternalServerError
              (H_message "Failed to generate unique id string!"), st)
    end.
Proof.
  unfold Mem.createLobby.
  pose proof (randSeq_candidate src 0) as Hfirst.
  change (0 * LOBBY_ID_LENGTH)%nat with 0%nat in Hfirst.
  rewrite Hfirst, mem_createLobby_loop.
  destruct (first_free _ src 0 10) as [i|] eqn:Hi; [|done].
  apply first_free_Some in Hi as (Hi & _).
  destruct (Nat.eqb_spec (10 - (i - 0)) 0); [lia|done].
Qed.

(** An id that [createLobby] returns was free, and is a lobby
    afterwards. *)
Lemma mem_createLobby_returns_free src st code id st' :
  Mem.createLobby src st = (JSON code (J_string id), st') ->
  Mem.lobbies st !! id = None /\ Mem.lobbies st' !! id = Some true.
Proof.
  rewrite mem_createLobby_first_free.
  destruct (first_free _ src 0 10) as [i|] eqn:Hi; [|done].
  apply first_free_Some in Hi as (_ & Hfree & _).
  intros [= <- <- <-]. split.
  - by apply doesLobbyExist_false.
  - simpl. apply lookup_insert_eq.
Qed.

Lemma mem_createLobby_exhausted_iff src st :
  GenerationExhausted (Mem.createLobby src st).1 <->
  forall i, (i < 10)%nat ->
            Mem.doesLobbyExist st (candidate src i) = true.
Proof.
  rewrite mem_createLobby_first_free.
  destruct (first_free _ src 0 10) as [i|] eqn:Hi; simpl.
  - apply first_free_Some in Hi as (Hi & Hfree & _).
    split; [by intros [=]|]. intros H. rewrite H in Hfree by lia. done.
  - split; [|done]. intros _ i Hlt.
    apply (proj1 (first_free_None _ _ _ _) Hi). lia.
Qed.

(** C2.  [createLobby] with "aaaaaa" already a lobby and a random source
    that yields "aaaaaa" ten times and then "bbbbbb".  The loop runs its
    ten iterations; the tenth draws "bbbbbb", which is free, and leaves
    the loop with that id and [attempts = 0].  The handler then answers
    GenerationExhausted and creates nothing, in both variants, although a
    free id was drawn within the ten retries. *)
Theorem createLobby_discards_last_candidate :
  candidate Sample.ten_a_then_b 10 = "bbbbbb"
  /\ Mem.doesLobbyExist Sample.st_lobby "bbbbbb" = false
  /\ Mem.createLobby_loop Sample.st_lobby Sample.ten_a_then_b 10
       (candidate Sample.ten_a_then_b 0) LOBBY_ID_LENGTH
     = ("bbbbbb", 0%nat)
  /\ Mem.createLobby Sample.ten_a_then_b Sample.st_lobby =
       (JSON StatusInternalServerError
             (H_message "Failed to generate unique id string!"),
        Sample.st_lobby)
  /\ ("bbbbbb" ∉ Sql.lobbies (Sql.db Sample.w_lobby))
  /\ fst (Sql.createLobby Sample.ten_a_then_b Sample.w_lobby) =
       [JSON StatusInternalServerError
             (H_message "Failed to generate unique id string!")]
  /\ Sql.db (snd (Sql.createLobby Sample.ten_a_then_b Sample.w_lobby)) =
       Sql.db Sample.w_lobby.
Proof.
  split; [by vm_compute|].
  split; [by vm_compute|].
  split; [by vm_compute|].
  split; [by vm_compute|].
  split; [|split; by vm_compute].
  intros Hin. apply list_elem_of_singleton in Hin. discriminate Hin.
Qed.

End Creating.

(** * The limit on the length of a message body *)

Section BodyLength.

(** The in-memory variant has no limit: on the lobby "aaaaaa" a body of
    513 bytes is stored under id 1 and the counter moves to 2. *)
Lemma mem_postMessage_stores_long_body :
  (512 < String.length (message.MessageString Sample.long_hello))%nat
  /\ is_Some (Mem.lobbies Sample.st_alice
                !! message.LobbyId Sample.long_hello)
  /\ ~ BodyTooLong
         (fst (Mem.postMessage 0 (Some Sample.long_hello) Sample.st_alice))
  /\ Mem.messages
       (snd (Mem.postMessage 0 (Some Sample.long_hello) Sample.st_alice))
     = [message.mk 1 "aaaaaa" "alice" Sample.long_text 0]
  /\ Mem.nextMessageId
       (snd (Mem.postMessage 0 (Some Sample.long_hello) Sample.st_alice))
     = 2.
Proof.
  split; [vm_compute; lia|].
  split; [by eexists|].
  split; [|split; by vm_compute].
  vm_compute. intros [=].
Qed.

Lemma mem_postMessage_never_too_long st now body :
  ~ BodyTooLong (fst (Mem.postMessage now body st)).
Proof.
  unfold BodyTooLong, Mem.postMessage, Mem.constructLobbyData.
  repeat case_match; simpl; intros [=]; simplify_eq.
Qed.

(** The database variant checks the length before it touches the
    database. *)
Lemma sql_postMessage_too_long w now msg :
  (Sql.MAX_MSG_LEN < String.length (message.MessageString msg))%nat ->
  Sql.postMessage now (Some msg) w =
    ([JSON StatusBadRequest (H_message "Message is too long!")], w).
Proof.
  intros H. unfold Sql.postMessage.
  by destruct (Nat.ltb_spec Sql.MAX_MSG_LEN
                 (String.length (message.MessageString msg))); [|lia].
Qed.

(** A body within the limit, on an existing lobby of a database that
    answers: the row is inserted and the fresh view returned. *)
Lemma sql_postMessage_healthy w now msg :
  Sql.healthy w ->
  (String.length (message.MessageString msg) <= Sql.MAX_MSG_LEN)%nat ->
  message.LobbyId msg ∈ Sql.lobbies (Sql.db w) ->
  exists d w',
    Sql.postMessage now (Some msg) w =
      ([JSON StatusCreated (J_lobbyData d)], w')
    /\ Sql.message (Sql.db w') =
         Sql.message (Sql.db w)
           ++ [message.mk (Sql.auto_increment (Sql.db w))
                          (message.LobbyId msg) (message.SenderName msg)
                          (message.MessageString msg) now]
    /\ lobbyData.Messages d =
         slice_of (filter (fun m => message.LobbyId m = message.LobbyId msg)
                          (Sql.message (Sql.db w'))).
Proof.
  intros H Hlen Hin. unfold Sql.postMessage.
  destruct (Nat.ltb_spec Sql.MAX_MSG_LEN
              (String.length (message.MessageString msg))); [lia|].
  unfold mbind, Sql.M_bind.
  rewrite doesLobbyExist_healthy, bool_decide_eq_true_2 by done. simpl.
  unfold Sql.appendMessage, mbind, Sql.M_bind.
  rewrite call_healthy by done. simpl.
  rewrite constructLobbyData_healthy; [|done..].
  eexists _, _. split; [reflexivity|]. by split.
Qed.

(** C4, as the code has it.  The limit of 512 bytes belongs to the
    database variant.  There a longer body is answered with BodyTooLong
    before any call to the database: the world after the handler is the
    world before it, so no row was inserted and the id counter did not
    move; a body within the limit, on an existing lobby of a database that
    answers, is answered with 201 and not with BodyTooLong.  The in-memory
    variant never answers BodyTooLong, whatever the length; and it stores
    a body of any length: on an existing lobby, while the slice can grow,
    the message with that body is appended, the counter advances, and the
    answer is 201 with the view that ends with the message. *)
Theorem body_length_limit :
  (forall w now msg,
     (512 < String.length (message.MessageString msg))%nat ->
     exists r, Sql.postMessage now (Some msg) w = ([r], w)
               /\ BodyTooLong r)
  /\ (forall w now msg,
        Sql.healthy w ->
        (String.length (message.MessageString msg) <= 512)%nat ->
        message.LobbyId msg ∈ Sql.lobbies (Sql.db w) ->
        exists d, fst (Sql.postMessage now (Some msg) w) =
                    [JSON StatusCreated (J_lobbyData d)]
                  /\ ~ BodyTooLong (JSON StatusCreated (J_lobbyData d)))
  /\ (forall st now body,
        ~ BodyTooLong (fst (Mem.postMessage now body st)))
  /\ (forall st now msg,
        is_Some (Mem.lobbies st !! message.LobbyId msg) ->
        Z.of_nat (length (Mem.messages st)) < max_int ->
        exists d msgs,
          Mem.postMessage now (Some msg) st =
            (JSON StatusCreated (J_lobbyData d),
             Mem.mkStore (Mem.messages st ++ [Mem.posted st now msg])
                         (Mem.senders st) (Mem.lobbies st)
                         (wrap_int (Mem.nextMessageId st + 1)))
          /\ message.MessageString (Mem.posted st now msg)
             = message.MessageString msg
          /\ lobbyData.Messages d = slice_of msgs
          /\ last msgs = Some (Mem.posted st now msg)).
Proof.
  split; [|split; [|split]].
  - intros w now msg H. eexists. split.
    + by apply sql_postMessage_too_long.
    + done.
  - intros w now msg H Hlen Hin.
    destruct (sql_postMessage_healthy w now msg H Hlen Hin)
      as (d & w' & Heq & _).
    exists d. rewrite Heq. split; [done|]. by intros [=].
  - apply mem_postMessage_never_too_long.
  - intros st now msg Hl Hlen. eexists _, _.
    split; [by apply postMessage_created|].
    split; [done|]. split; [reflexivity|]. simpl.
    rewrite filter_app, filter_cons, decide_True, filter_nil by done.
    apply last_snoc.
Qed.

Lemma body_length_limit_witness :
  Sql.postMessage 0 (Some Sample.long_hello) Sample.w_alice =
    ([JSON StatusBadRequest (H_message "Message is too long!")],
     Sample.w_alice)
  /\ (exists d, fst (Sql.postMessage 0 (Some Sample.hello) Sample.w_alice) =
                  [JSON StatusCreated (J_lobbyData d)])
  /\ Mem.messages
       (snd (Mem.postMessage 0 (Some Sample.long_hello) Sample.st_alice))
     = [Mem.posted Sample.st_alice 0 Sample.long_hello].
Proof.
  destruct body_length_limit as (Hlong & Hshort & _ & Hstore).
  split; [|split].
  - destruct (Hlong Sample.w_alice 0 Sample.long_hello)
      as (r & Heq & ->).
    + vm_compute. lia.
    + exact Heq.
  - destruct (Hshort Sample.w_alice 0 Sample.hello) as (d & Heq & _).
    + intros k. reflexivity.
    + vm_compute. lia.
    + vm_compute. left.
    + exists d. exact Heq.
  - destruct (Hstore Sample.st_alice 0 Sample.long_hello)
      as (d & msgs & Heq & _).
    + eexists. reflexivity.
    + vm_compute. reflexivity.
    + rewrite Heq. reflexivity.
Defined.

End BodyLength.

(** * Message ids (in-memory variant) *)

Section MessageIds.
Import Mem.

Lemma wrap_int_small z : min_int <= z <= max_int -> wrap_int z = z.
Proof.
  unfold wrap_int, min_int, max_int. intros H.
  rewrite Z.mod_small by lia. lia.
Qed.

(** Every handler but a successful [postMessage] leaves the messages
    alone; none of them removes or rewrites a stored message. *)
Lemma handle_messages fuel rq st r st' :
  handle fuel rq st = Some (r, st') ->
  (messages st' = messages st
   /\ (nextMessageId st' = nextMessageId st
       \/ max_int <= Z.of_nat (length (messages st))))
  \/ (exists now msg,
        rq = PostMessage now (Some msg)
        /\ Z.of_nat (length (messages st)) < max_int
        /\ (exists obj, r = JSON StatusCreated obj)
        /\ messages st' = messages st ++ [posted st now msg]
        /\ nextMessageId st' = wrap_int (nextMessageId st + 1)).
Proof.
  destruct rq as [id|now body|id|src|body|body]; simpl.
  - unfold fetchLobbyData.
    destruct (constructLobbyData st id) as [d [err|]];
      intros [= <- <-]; left; auto.
  - intros [= Hpost]. destruct body as [msg|].
    + destruct (lobbies st !! message.LobbyId msg) as [b|] eqn:Hl.
      * destruct (Z.lt_ge_cases (Z.of_nat (length (messages st))) max_int)
          as [Hlen|Hlen].
        -- rewrite postMessage_created in Hpost by (rewrite ?Hl; eauto).
           injection Hpost as <- <-. right. exists now, msg.
           repeat split; eauto.
        -- rewrite postMessage_panics in Hpost by (rewrite ?Hl; eauto).
           injection Hpost as <- <-. left. auto.
      * rewrite postMessage_unknown in Hpost by done.
        injection Hpost as <- <-. left. auto.
    + injection Hpost as <- <-. left. auto.
  - unfold lobbyExists.
    destruct (negb _); intros [= <- <-]; left; auto.
  - unfold createLobby.
    destruct (randSeq src 0 LOBBY_ID_LENGTH) as [id k].
    destruct (createLobby_loop st src 10 id k) as [id' attempts].
    destruct (attempts =? 0)%nat; intros [= <- <-]; left; auto.
  - unfold enterLobby.
    destruct body as [enterReq|]; [|intros [= <- <-]; left; auto].
    destruct (negb _); [intros [= <- <-]; left; auto|].
    destruct (if enterLobby_add _ _ then _ else _) as [snds|];
      [|intros [= <- <-]; left; auto].
    destruct (constructLobbyData _ _) as [d [err|]];
      intros [= <- <-]; left; auto.
  - unfold updateTyping.
    destruct body as [request|]; [|intros [= <- <-]; left; auto].
    destruct (updateTyping_scan _ _ _ _) as [[snds found]|]; [|done].
    destruct found; intros [= <- <-]; left; auto.
Qed.

Lemma handle_keeps_ids fuel rq st r st' :
  handle fuel rq st = Some (r, st') ->
  ids_in_sequence st /\ counter_in_step st ->
  ids_in_sequence st' /\ counter_in_step st'.
Proof.
  intros Hh [Hids Hctr]. unfold ids_in_sequence, counter_in_step in *.
  apply handle_messages in Hh
    as [(-> & [->|Hfull])
       |(now & msg & _ & Hlen & _ & -> & ->)]; [done|split; [done|lia]|].
  specialize (Hctr Hlen).
  rewrite fmap_app, length_app, Hids. simpl.
  rewrite Nat.add_1_r, seqZ_S. split.
  - unfold posted. simpl. rewrite Hctr. do 2 f_equal. lia.
  - intros Hlen'. rewrite Hctr, wrap_int_small; unfold min_int; lia.
Qed.

Lemma run_keeps_ids fuel rqs st st' :
  run fuel rqs st = Some st' ->
  ids_in_sequence st /\ counter_in_step st ->
  ids_in_sequence st' /\ counter_in_step st'.
Proof.
  revert st. induction rqs as [|rq rqs IH]; intros st; simpl.
  - by intros [= <-].
  - destruct (handle fuel rq st) as [[r st1]|] eqn:Hh; [|done].
    intros Hrun Hinv. apply (IH st1 Hrun).
    by eapply handle_keeps_ids.
Qed.

Lemma reachable_ids st :
  reachable st -> ids_in_sequence st /\ counter_in_step st.
Proof.
  intros (fuel & rqs & Hrun). apply (run_keeps_ids _ _ _ _ Hrun).
  split; [done|]. by intros _.
Qed.

(** C5.  In a store the server can be in, the ids of the stored messages
    are 1, 2, 3, ... in the order in which they were stored, whatever
    their lobbies: they are pairwise different, and the message stored
    [k] places after another has an id larger by [k].  No handler removes
    or rewrites a stored message, and a [postMessage] that answers 201
    adds exactly one, whose id is one more than the number of messages
    stored before. *)
Theorem message_ids_consecutive (st : store) :
  reachable st ->
  message.Id <$> messages st = seqZ 1 (Z.of_nat (length (messages st)))
  /\ NoDup (message.Id <$> messages st)
  /\ (forall i k m m',
        messages st !! i = Some m ->
        messages st !! (i + k)%nat = Some m' ->
        message.Id m' = message.Id m + Z.of_nat k)
  /\ (forall fuel rq r st',
        handle fuel rq st = Some (r, st') ->
        messages st' = messages st
        \/ exists m, messages st' = messages st ++ [m])
  /\ (forall now msg r st',
        postMessage now (Some msg) st = (r, st') ->
        (exists obj, r = JSON StatusCreated obj) ->
        exists m,
          messages st' = messages st ++ [m]
          /\ message.Id m = Z.of_nat (length (messages st)) + 1
          /\ forall m', m' ∈ messages st -> message.Id m' < message.Id m).
Proof.
  intros Hreach. destruct (reachable_ids st Hreach) as [Hids Hctr].
  assert (Hat : forall i m, messages st !! i = Some m ->
                            message.Id m = 1 + Z.of_nat i).
  { intros i m Hi.
    assert (H : (message.Id <$> messages st) !! i = Some (message.Id m))
      by by rewrite list_lookup_fmap, Hi.
    rewrite Hids in H. by apply lookup_seqZ in H as [-> _]. }
  split; [exact Hids|]. split; [rewrite Hids; apply NoDup_seqZ|].
  split; [|split].
  - intros i k m m' Hi Hik.
    rewrite (Hat _ _ Hi), (Hat _ _ Hik). lia.
  - intros fuel rq r st' Hh.
    apply handle_messages in Hh
      as [(-> & _)|(now & msg & _ & _ & _ & -> & _)]; [by left|].
    right. by eexists.
  - intros now msg r st' Hpost Hok.
    destruct (postMessage_created_inv _ _ _ _ _ Hpost Hok)
      as (msg' & [= <-] & Hl & Hlen).
    rewrite postMessage_created in Hpost by done.
    injection Hpost as <- <-. exists (posted st now msg).
    split; [done|]. unfold posted. simpl. rewrite (Hctr Hlen).
    split; [lia|].
    intros m' [i Hi]%list_elem_of_lookup.
    rewrite (Hat _ _ Hi). apply lookup_lt_Some in Hi. lia.
Qed.

Lemma message_ids_consecutive_witness :
  message.Id <$> messages Sample.st_two_posts = [1; 2]
  /\ NoDup (message.Id <$> messages Sample.st_two_posts).
Proof.
  destruct (message_ids_consecutive Sample.st_two_posts)
    as (Hids & Hnodup & _).
  - exists 1%nat, Sample.history. vm_compute. reflexivity.
  - split; [exact Hids|exact Hnodup].
Defined.

End MessageIds.

(** * Entering a lobby *)

Section Entering.
Import Mem.

(** [enterLobby] on an existing lobby, by cases on the [add] flag. *)
Lemma enterLobby_present st enterReq :
  is_Some (lobbies st !! sender.LobbyId enterReq) ->
  records_for (sender.Username enterReq) (sender.LobbyId enterReq)
              (senders st) <> [] ->
  exists d, enterLobby (Some enterReq) st = (JSON StatusOK (J_lobbyData d), st).
Proof.
  intros Hl Hrec. apply doesLobbyExist_true in Hl.
  unfold enterLobby. rewrite Hl, enterLobby_add_records.
  rewrite bool_decide_eq_false_2 by done. simpl.
  destruct st as [ms ss ls n]; simpl in *.
  rewrite constructLobbyData_ok by done. by eexists.
Qed.

Lemma enterLobby_absent st enterReq :
  is_Some (lobbies st !! sender.LobbyId enterReq) ->
  records_for (sender.Username enterReq) (sender.LobbyId enterReq)
              (senders st) = [] ->
  Z.of_nat (length (senders st)) < max_int ->
  exists d,
    enterLobby (Some enterReq) st =
      (JSON StatusOK (J_lobbyData d),
       mkStore (messages st)
               (senders st ++ [sender.mk (sender.Username enterReq)
                                         (sender.LobbyId enterReq) false])
               (lobbies st) (nextMessageId st)).
Proof.
  intros Hl Hrec Hlen. apply doesLobbyExist_true in Hl.
  unfold enterLobby, go_append. rewrite Hl, enterLobby_add_records.
  rewrite bool_decide_eq_true_2 by done. simpl.
  destruct (Z.ltb_spec (Z.of_nat (length (senders st))) max_int); [|lia].
  rewrite constructLobbyData_ok by done. by eexists.
Qed.

Lemma enterLobby_full st enterReq :
  is_Some (lobbies st !! sender.LobbyId enterReq) ->
  records_for (sender.Username enterReq) (sender.LobbyId enterReq)
              (senders st) = [] ->
  max_int <= Z.of_nat (length (senders st)) ->
  enterLobby (Some enterReq) st = (Panicked, st).
Proof.
  intros Hl Hrec Hlen. apply doesLobbyExist_true in Hl.
  unfold enterLobby, go_append. rewrite Hl, enterLobby_add_records.
  rewrite bool_decide_eq_true_2 by done. simpl.
  by destruct (Z.ltb_spec (Z.of_nat (length (senders st))) max_int);
    [lia|].
Qed.

Lemma records_for_elem name lobbyId snds :
  records_for name lobbyId snds <> [] <->
  (name, lobbyId) ∈ sender_key <$> snds.
Proof.
  unfold records_for. rewrite list_elem_of_fmap. split.
  - intros H. destruct (filter _ snds) as [|s l] eqn:Hf; [done|].
    assert (Hs : s ∈ filter (fun s => sender_key s = (name, lobbyId)) snds)
      by (rewrite Hf; by left).
    apply list_elem_of_filter in Hs as [Hk Hs]. by exists s.
  - intros (s & Hk & Hs) Hnil.
    by eapply (filter_nil_not_elem_of _ _ s).
Qed.

(** After a call answered with the view, the pair has a record. *)
Lemma enterLobby_ok_present st enterReq d st' :
  enterLobby (Some enterReq) st = (JSON StatusOK (J_lobbyData d), st') ->
  is_Some (lobbies st' !! sender.LobbyId enterReq)
  /\ records_for (sender.Username enterReq) (sender.LobbyId enterReq)
                 (senders st') <> [].
Proof.
  intros Henter.
  destruct (lobbies st !! sender.LobbyId enterReq) as [b|] eqn:Hl;
    [|by rewrite enterLobby_unknown in Henter].
  destruct (decide (records_for (sender.Username enterReq)
                      (sender.LobbyId enterReq) (senders st) = []))
    as [Habs|Hpres].
  - destruct (Z.lt_ge_cases (Z.of_nat (length (senders st))) max_int)
      as [Hlen|Hlen].
    + destruct (enterLobby_absent st enterReq) as [d' Heq];
        [rewrite Hl; eauto|done..|].
      rewrite Heq in Henter. injection Henter as _ <-. simpl.
      split; [rewrite Hl; eauto|].
      unfold records_for. rewrite filter_app, filter_cons.
      rewrite decide_True by done.
      intros H. by apply app_eq_nil in H as [_ ?].
    + rewrite enterLobby_full in Henter by (rewrite ?Hl; eauto). done.
  - destruct (enterLobby_present st enterReq) as [d' Heq];
      [rewrite Hl; eauto|done|].
    rewrite Heq in Henter. injection Henter as _ <-.
    split; [rewrite Hl; eauto|done].
Qed.

(** No handler removes a lobby or drops the key of a sender; a key is only
    ever added when it is new. *)
Lemma handle_senders fuel rq st r st' :
  handle fuel rq st = Some (r, st') ->
  (forall id, is_Some (lobbies st !! id) -> is_Some (lobbies st' !! id))
  /\ (sender_key <$> senders st' = sender_key <$> senders st
      \/ exists s, senders st' = senders st ++ [s]
                   /\ sender_key s ∉ sender_key <$> senders st).
Proof.
  destruct rq as [id|now body|id|src|body|body]; simpl.
  - unfold fetchLobbyData.
    destruct (constructLobbyData st id) as [d [err|]];
      intros [= <- <-]; auto.
  - unfold postMessage.
    destruct body as [msg|]; [|intros [= <- <-]; auto].
    destruct (negb _); [intros [= <- <-]; auto|].
    destruct (go_append _ _) as [msgs|]; [|intros [= <- <-]; auto].
    destruct (constructLobbyData _ _) as [d [err|]];
      intros [= <- <-]; auto.
  - unfold lobbyExists. destruct (negb _); intros [= <- <-]; auto.
  - unfold createLobby.
    destruct (randSeq src 0 LOBBY_ID_LENGTH) as [id k].
    destruct (createLobby_loop st src 10 id k) as [id' attempts].
    destruct (attempts =? 0)%nat; intros [= <- <-]; [auto|].
    simpl. split; [|auto]. intros id0 Hid0.
    destruct (decide (id' = id0)) as [->|Hne].
    + rewrite lookup_insert_eq. eauto.
    + by rewrite lookup_insert_ne.
  - intros [= Henter]. destruct body as [enterReq|];
      [|injection Henter as <- <-; auto].
    destruct (lobbies st !! sender.LobbyId enterReq) as [b|] eqn:Hl;
      [|rewrite enterLobby_unknown in Henter by done;
        injection Henter as <- <-; auto].
    destruct (decide (records_for (sender.Username enterReq)
                        (sender.LobbyId enterReq) (senders st) = []))
      as [Habs|Hpres].
    + destruct (Z.lt_ge_cases (Z.of_nat (length (senders st))) max_int)
        as [Hlen|Hlen].
      * destruct (enterLobby_absent st enterReq) as [d' Heq];
          [rewrite Hl; eauto|done..|].
        rewrite Heq in Henter. injection Henter as <- <-. simpl.
        split; [auto|]. right. eexists. split; [done|].
        intros Hin. by apply records_for_elem in Hin.
      * rewrite enterLobby_full in Henter by (rewrite ?Hl; eauto).
        injection Henter as <- <-. auto.
    + destruct (enterLobby_present st enterReq) as [d' Heq];
        [rewrite Hl; eauto|done|].
      rewrite Heq in Henter. injection Henter as <- <-. auto.
  - unfold updateTyping.
    destruct body as [request|]; [|intros [= <- <-]; auto].
    destruct (updateTyping_scan _ _ _ _) as [[snds found]|] eqn:Hscan;
      [|done].
    apply updateTyping_scan_inv in Hscan
      as [(-> & -> & _)|(-> & s & Hs & _ & ->)];
      intros [= <- <-]; simpl; [auto|].
    split; [auto|]. left.
    rewrite list_fmap_insert. apply list_insert_id.
    by rewrite list_lookup_fmap, Hs.
Qed.

End Entering.

(** * Entering the same lobby twice *)

Section IdempotentJoin.

Lemma run_senders fuel rqs st st' :
  Mem.run fuel rqs st = Some st' ->
  (forall id, is_Some (Mem.lobbies st !! id) ->
              is_Some (Mem.lobbies st' !! id))
  /\ (forall k, k ∈ sender_key <$> Mem.senders st ->
                k ∈ sender_key <$> Mem.senders st')
  /\ (Mem.unique_senders st -> Mem.unique_senders st').
Proof.
  revert st. induction rqs as [|rq rqs IH]; intros st; simpl.
  - by intros [= <-].
  - destruct (Mem.handle fuel rq st) as [[r st1]|] eqn:Hh; [|done].
    intros Hrun. destruct (IH st1 Hrun) as (IHl & IHk & IHu).
    apply handle_senders in Hh as [Hl Hk].
    split; [by auto|]. unfold Mem.unique_senders in *.
    destruct Hk as [Hk|(s & Hk & Hfresh)].
    + rewrite Hk in *. by split.
    + rewrite Hk, fmap_app in *. split.
      * intros k Hin. apply IHk, elem_of_app. by left.
      * intros Hu. apply IHu, NoDup_app. split; [done|].
        split; [|apply NoDup_singleton].
        intros k Hin ->%list_elem_of_singleton. done.
Qed.

Lemma reachable_unique_senders st :
  Mem.reachable st -> Mem.unique_senders st.
Proof.
  intros (fuel & rqs & Hrun).
  apply (run_senders _ _ _ _ Hrun). apply NoDup_nil_2.
Qed.

(** Under unique keys a pair that has a record has exactly one. *)
Lemma one_record name lobbyId snds :
  NoDup (sender_key <$> snds) ->
  (name, lobbyId) ∈ sender_key <$> snds ->
  length (records_for name lobbyId snds) = 1%nat.
Proof.
  unfold records_for. induction snds as [|s snds IH]; simpl.
  - by intros _ ?%elem_of_nil.
  - intros [Hs Hnd]%NoDup_cons Hin. rewrite filter_cons.
    destruct (decide (sender_key s = (name, lobbyId))) as [Hk|Hk].
    + simpl. f_equal. rewrite Hk in Hs.
      destruct (filter _ snds) as [|s' l] eqn:Hf; [done|].
      exfalso. apply Hs, records_for_elem.
      unfold records_for. by rewrite Hf.
    + apply IH; [done|].
      apply elem_of_cons in Hin as [Hin|Hin]; [by symmetry in Hin|done].
Qed.

(** The database variant: [senderExists] and [addSender] on a database
    that answers. *)
Lemma senderExists_healthy enterReq w :
  Sql.healthy w ->
  Sql.senderExists enterReq w =
    (bool_decide (records_for (sender.Username enterReq)
                    (sender.LobbyId enterReq)
                    (Sql.sender (Sql.db w)) <> []),
     Sql.after_calls 1 w).
Proof.
  intros H. unfold Sql.senderExists, mbind, Sql.M_bind.
  rewrite call_healthy by done. unfold Sql.count_sender. simpl.
  assert (Hf : filter (fun s => sender.LobbyId s = sender.LobbyId enterReq
                         /\ sender.Username s = sender.Username enterReq)
                 (Sql.sender (Sql.db w))
               = records_for (sender.Username enterReq)
                   (sender.LobbyId enterReq) (Sql.sender (Sql.db w))).
  { apply list_filter_iff. intros s. unfold sender_key. split.
    - by intros [-> ->].
    - by intros [= -> ->]. }
  rewrite Hf.
  by destruct (records_for _ _ _) as [|s l].
Qed.

Lemma addSender_present enterReq w :
  Sql.healthy w ->
  records_for (sender.Username enterReq) (sender.LobbyId enterReq)
              (Sql.sender (Sql.db w)) <> [] ->
  Sql.addSender enterReq w = (None, Sql.after_calls 1 w).
Proof.
  intros H Hrec. unfold Sql.addSender, mbind, Sql.M_bind.
  by rewrite senderExists_healthy, bool_decide_eq_true_2.
Qed.

Lemma addSender_absent enterReq w :
  Sql.healthy w ->
  records_for (sender.Username enterReq) (sender.LobbyId enterReq)
              (Sql.sender (Sql.db w)) = [] ->
  Sql.addSender enterReq w =
    (None,
     Sql.mkWorld
       (Sql.mkDb (Sql.lobbies (Sql.db w)) (Sql.message (Sql.db w))
                 (Sql.sender (Sql.db w)
                    ++ [sender.mk (sender.Username enterReq)
                                  (sender.LobbyId enterReq) false])
                 (Sql.auto_increment (Sql.db w)))
       (Sql.faults w) (2 + Sql.calls w)).
Proof.
  intros H Hrec. unfold Sql.addSender, mbind, Sql.M_bind.
  rewrite senderExists_healthy by done.
  rewrite bool_decide_eq_false_2 by (by intros ?).
  by rewrite call_healthy.
Qed.

Lemma setTyping_healthy request w :
  Sql.healthy w ->
  Sql.setTyping request w =
    (None,
     Sql.mkWorld
       (Sql.update_sender (sender.IsTyping request)
          (sender.LobbyId request) (sender.Username request)
          (Sql.db w)).2
       (Sql.faults w) (S (Sql.calls w))).
Proof.
  intros H. unfold Sql.setTyping, mbind, Sql.M_bind.
  by rewrite call_healthy.
Qed.

(** The [UPDATE] keeps the records of the pair, each with the new flag. *)
Lemma update_sender_records typing lobbyId name d :
  length (records_for name lobbyId
            (Sql.sender (Sql.update_sender typing lobbyId name d).2))
    = length (records_for name lobbyId (Sql.sender d))
  /\ forall s,
       s ∈ records_for name lobbyId
             (Sql.sender (Sql.update_sender typing lobbyId name d).2) ->
       sender.IsTyping s = typing.
Proof.
  unfold Sql.update_sender, records_for. simpl.
  induction (Sql.sender d) as [|s0 snds [IHlen IHflag]]; simpl.
  - split; [done|]. by intros s ?%elem_of_nil.
  - rewrite !filter_cons.
    destruct (decide (sender.LobbyId s0 = lobbyId
                      /\ sender.Username s0 = name)) as [[Hl Hu]|Hne].
    + rewrite !decide_True by (unfold sender_key; simpl; congruence).
      simpl. split; [by rewrite IHlen|].
      intros s [->|Hs]%elem_of_cons; [done|by apply IHflag].
    + rewrite !decide_False
        by (unfold sender_key; intros [= ? ?]; by apply Hne).
      by split.
Qed.

(** C6.  Entering a lobby twice under one name.

    In-memory variant: in a store the server can be in, let a first
    [enterLobby] be answered with the view, let any requests follow (a
    typing update among them, say), and let [enterLobby] then be called
    again with the same name and lobby.  The second call is answered with
    the view and returns the store it was given, so no record is added
    and no [IsTyping] flag is touched; the pair has exactly one record.

    Database variant, on a database that answers and holds at most one
    row for the pair: [addSender], then a [setTyping] for the pair, then
    [addSender] again.  Both [addSender] calls report no error, the
    second leaves the tables as they are, and afterwards the pair has
    exactly one row, with the flag the update gave it. *)
Theorem enter_twice_one_record :
  (forall st fuel rqs st1 st2 enterReq enterReq' d,
     Mem.reachable st ->
     Mem.enterLobby (Some enterReq) st
       = (JSON StatusOK (J_lobbyData d), st1) ->
     Mem.run fuel rqs st1 = Some st2 ->
     sender_key enterReq' = sender_key enterReq ->
     (exists d', Mem.enterLobby (Some enterReq') st2
                   = (JSON StatusOK (J_lobbyData d'), st2))
     /\ length (records_for (sender.Username enterReq)
                            (sender.LobbyId enterReq) (Mem.senders st2))
        = 1%nat)
  /\ (forall w enterReq enterReq' typing,
        Sql.healthy w ->
        (length (records_for (sender.Username enterReq)
                   (sender.LobbyId enterReq) (Sql.sender (Sql.db w)))
         <= 1)%nat ->
        sender_key enterReq' = sender_key enterReq ->
        let first := Sql.addSender enterReq w in
        let between :=
          Sql.setTyping (sender.mk (sender.Username enterReq)
                                   (sender.LobbyId enterReq) typing)
                        (snd first) in
        let second := Sql.addSender enterReq' (snd between) in
        fst first = None
        /\ fst second = None
        /\ Sql.db (snd second) = Sql.db (snd between)
        /\ length (records_for (sender.Username enterReq)
                     (sender.LobbyId enterReq)
                     (Sql.sender (Sql.db (snd second)))) = 1%nat
        /\ forall s,
             s ∈ records_for (sender.Username enterReq)
                   (sender.LobbyId enterReq)
                   (Sql.sender (Sql.db (snd second))) ->
             sender.IsTyping s = typing).
Proof.
  split.
  - intros st fuel rqs st1 st2 enterReq enterReq' d
           Hreach Hfirst Hrun [= Hu Hl].
    destruct (enterLobby_ok_present _ _ _ _ Hfirst) as [Hlobby Hrec].
    assert (Hstep : Mem.run 0 [Mem.EnterLobby (Some enterReq)] st = Some st1)
      by (cbn [Mem.run Mem.handle]; by rewrite Hfirst).
    destruct (run_senders _ _ _ _ Hstep) as (_ & _ & Hu1).
    destruct (run_senders _ _ _ _ Hrun) as (Hls & Hks & Hu2).
    apply records_for_elem, Hks in Hrec.
    split.
    + apply enterLobby_present; rewrite ?Hu, ?Hl.
      * by apply Hls.
      * by apply records_for_elem.
    + apply one_record; [|done].
      by apply Hu2, Hu1, reachable_unique_senders.
  - intros w enterReq enterReq' typing H Hone [= Hu Hl].
    set (name := sender.Username enterReq) in *.
    set (lobbyId := sender.LobbyId enterReq) in *.
    assert (Hfirst : exists w1,
              Sql.addSender enterReq w = (None, w1) /\ Sql.healthy w1
              /\ length (records_for name lobbyId
                           (Sql.sender (Sql.db w1))) = 1%nat).
    { destruct (records_for name lobbyId (Sql.sender (Sql.db w)))
        as [|s l] eqn:Hrec.
      - eexists. split; [by apply addSender_absent|].
        split; [intros k; apply H|]. simpl.
        unfold records_for in *. rewrite filter_app, Hrec, filter_cons.
        by rewrite decide_True.
      - eexists. split; [apply addSender_present; [done|]|].
        + fold name lobbyId. by rewrite Hrec.
        + split; [by apply healthy_after_calls|]. simpl. rewrite Hrec.
          simpl in *. destruct l; [done|simpl in Hone; lia]. }
    destruct Hfirst as (w1 & -> & H1 & Hlen1). simpl.
    rewrite setTyping_healthy by done. simpl.
    destruct (update_sender_records typing lobbyId name (Sql.db w1))
      as [Hlen2 Hflag].
    rewrite Hlen1 in Hlen2.
    rewrite addSender_present.
    + simpl. by repeat split.
    + intros k. apply H1.
    + rewrite Hu, Hl. simpl. fold name lobbyId.
      intros Hnil. unfold Sql.update_sender in Hlen2. simpl in Hlen2.
      by rewrite Hnil in Hlen2.
Qed.

Lemma enter_twice_one_record_witness :
  (exists d', Mem.enterLobby (Some Sample.alice) Sample.st_alice_typing
                = (JSON StatusOK (J_lobbyData d'), Sample.st_alice_typing))
  /\ length (records_for "alice" "aaaaaa"
                         (Mem.senders Sample.st_alice_typing)) = 1%nat.
Proof.
  destruct enter_twice_one_record as [Hmem _].
  apply (Hmem Sample.st_lobby 1%nat
              [Mem.UpdateTyping (Some Sample.alice_typing)]
              Sample.st_alice Sample.st_alice_typing
              Sample.alice Sample.alice
              (lobbyData.mk (slice_of []) (slice_of [Sample.alice])
                            "aaaaaa")).
  - exists 0%nat, [Mem.CreateLobby Sample.always_a].
    vm_compute. reflexivity.
  - vm_compute. reflexivity.
  - vm_compute. reflexivity.
  - reflexivity.
Defined.

End IdempotentJoin.

(** * Further properties of the code *)

(** ** Random ids *)

Section RandomIds.

Lemma randSeq_runes_length src k n : length (randSeq_runes src k n) = n.
Proof. revert k. induction n as [|n IH]; intros k; simpl; auto. Qed.

Lemma randSeq_runes_letters src k n c :
  c ∈ randSeq_runes src k n -> c ∈ letters.
Proof.
  revert k. induction n as [|n IH]; intros k; cbn [randSeq_runes].
  - by intros ?%elem_of_nil.
  - intros [->|Hc]%elem_of_cons; [|by eapply IH].
    apply list_elem_of_In, nth_In.
    unfold Intn. apply Nat.mod_upper_bound. discriminate.
Qed.

Lemma randSeq_runes_ext src src' k n :
  (forall i, (k <= i < k + n)%nat -> src i = src' i) ->
  randSeq_runes src k n = randSeq_runes src' k n.
Proof.
  revert k. induction n as [|n IH]; intros k Hagree; cbn [randSeq_runes];
    [done|].
  unfold Intn. rewrite (Hagree k) by lia. f_equal.
  apply IH. intros i Hi. apply Hagree. lia.
Qed.

Lemma string_of_list_length l :
  String.length (String.string_of_list_ascii l) = length l.
Proof. induction l as [|c l IH]; simpl; auto. Qed.

(** X1.  [randSeq(n)] returns a string of exactly [n] bytes, each one of
    the 26 lowercase letters, and uses [n] draws of the random source; the
    string depends on those draws only. *)
Theorem randSeq_lowercase (src : rand_source) (k n : nat) :
  String.length (fst (randSeq src k n)) = n
  /\ snd (randSeq src k n) = (k + n)%nat
  /\ (forall c, c ∈ String.list_ascii_of_string (fst (randSeq src k n)) ->
                c ∈ letters)
  /\ (forall src',
        (forall i, (k <= i < k + n)%nat -> src i = src' i) ->
        fst (randSeq src' k n) = fst (randSeq src k n)).
Proof.
  unfold randSeq. cbn [fst snd].
  split; [by rewrite string_of_list_length, randSeq_runes_length|].
  split; [done|]. split.
  - intros c. rewrite String.list_ascii_of_string_of_list_ascii.
    apply randSeq_runes_letters.
  - intros src' Hagree. f_equal. symmetry. by apply randSeq_runes_ext.
Qed.

Lemma randSeq_lowercase_witness :
  fst (randSeq Sample.ten_a_then_b 60 LOBBY_ID_LENGTH)
    = fst (randSeq (fun _ => 1%nat) 60 LOBBY_ID_LENGTH).
Proof.
  destruct (randSeq_lowercase (fun _ => 1%nat) 60 LOBBY_ID_LENGTH)
    as (_ & _ & _ & Hext).
  apply Hext. intros i Hi. unfold Sample.ten_a_then_b.
  destruct (Nat.ltb_spec i 60); [lia|reflexivity].
Defined.

End RandomIds.

(** ** What the in-memory handlers do to the store *)

Section MemEffects.
Import Mem.

Lemma store_eta st :
  mkStore (messages st) (senders st) (lobbies st) (nextMessageId st) = st.
Proof. by destruct st. Qed.

(** Whatever the request and whatever the reply, a handler call that
    returns has done one of six things to the package-level variables:
    nothing; added one new key to [lobbies]; appended one message, with the
    id taken from the counter and for a lobby that exists, and advanced the
    counter; advanced the counter only (the append on a full slice);
    appended one sender with [IsTyping] false for a (name, lobby) pair that
    had no record, in a lobby that exists; or replaced the [IsTyping] of
    one sender.  No handler removes a lobby, a message or a sender, and
    none changes a stored message or the name or lobby of a sender. *)
Lemma handle_effect (fuel : nat) (rq : request) (st st' : store)
    (r : reply) :
  handle fuel rq st = Some (r, st') -> effect st st'.
Proof.
  destruct rq as [id|now body|id|src|body|body]; simpl.
  - unfold fetchLobbyData.
    destruct (constructLobbyData st id) as [d [err|]];
      intros [= <- <-]; constructor.
  - intros [= Hpost]. destruct body as [msg|];
      [|injection Hpost as <- <-; constructor].
    destruct (lobbies st !! message.LobbyId msg) as [b|] eqn:Hl.
    + destruct (Z.lt_ge_cases (Z.of_nat (length (messages st))) max_int)
        as [Hlen|Hlen].
      * rewrite postMessage_created in Hpost by (rewrite ?Hl; eauto).
        injection Hpost as <- <-.
        apply (message_posted st (posted st now msg)); [|done].
        simpl. rewrite Hl. eauto.
      * rewrite postMessage_panics in Hpost by (rewrite ?Hl; eauto).
        injection Hpost as <- <-. by constructor.
    + rewrite postMessage_unknown in Hpost by done.
      injection Hpost as <- <-. constructor.
  - unfold lobbyExists. destruct (negb _); intros [= <- <-]; constructor.
  - intros [= Hcreate]. rewrite mem_createLobby_first_free in Hcreate.
    destruct (first_free _ src 0 10) as [i|] eqn:Hi;
      injection Hcreate as <- <-; [|constructor].
    apply first_free_Some in Hi as (_ & Hfree & _).
    apply lobby_created. by apply doesLobbyExist_false.
  - intros [= Henter]. destruct body as [enterReq|];
      [|injection Henter as <- <-; constructor].
    destruct (lobbies st !! sender.LobbyId enterReq) as [b|] eqn:Hl;
      [|rewrite enterLobby_unknown in Henter by done;
        injection Henter as <- <-; constructor].
    destruct (decide (records_for (sender.Username enterReq)
                        (sender.LobbyId enterReq) (senders st) = []))
      as [Habs|Hpres].
    + destruct (Z.lt_ge_cases (Z.of_nat (length (senders st))) max_int)
        as [Hlen|Hlen].
      * destruct (enterLobby_absent st enterReq) as [d' Heq];
          [rewrite Hl; eauto|done..|].
        rewrite Heq in Henter. injection Henter as <- <-.
        apply sender_joined; [rewrite Hl; eauto|done].
      * rewrite enterLobby_full in Henter by (rewrite ?Hl; eauto).
        injection Henter as <- <-. constructor.
    + destruct (enterLobby_present st enterReq) as [d' Heq];
        [rewrite Hl; eauto|done|].
      rewrite Heq in Henter. injection Henter as <- <-. constructor.
  - unfold updateTyping.
    destruct body as [request|]; [|intros [= <- <-]; constructor].
    destruct (updateTyping_scan _ _ _ _) as [[snds found]|] eqn:Hscan;
      [|done].
    apply updateTyping_scan_inv in Hscan
      as [(-> & -> & _)|(-> & s & Hs & _ & ->)]; intros [= <- <-].
    + rewrite store_eta. constructor.
    + by apply flag_set.
Qed.

Lemma run_effect_ind (P : store -> store -> Prop) :
  (forall st, P st st) ->
  (forall st st1 st2, effect st st1 -> P st1 st2 -> P st st2) ->
  forall st st', reaches st st' -> P st st'.
Proof.
  intros Hrefl Hstep st st' (fuel & rqs & Hrun).
  revert st Hrun. induction rqs as [|rq rqs IH]; intros st; simpl.
  - intros [= <-]. apply Hrefl.
  - destruct (handle fuel rq st) as [[r st1]|] eqn:Hh; [|done].
    intros Hrun. apply (Hstep st st1); [by eapply handle_effect|auto].
Qed.

Lemma effect_grows st st' :
  effect st st' ->
  (forall id, is_Some (lobbies st !! id) -> is_Some (lobbies st' !! id))
  /\ (exists more, messages st' = messages st ++ more)
  /\ (exists more, sender_key <$> senders st'
                    = (sender_key <$> senders st) ++ more).
Proof.
  intros [|id Hid|m Hl Hm|Hfull|name lobbyId Hl Hrec|i s b Hs]; simpl.
  - split; [auto|]. split; exists []; by rewrite app_nil_r.
  - split; [|split; exists []; by rewrite app_nil_r].
    intros id0 H0. destruct (decide (id = id0)) as [->|Hne].
    + rewrite lookup_insert_eq. eauto.
    + by rewrite lookup_insert_ne.
  - split; [auto|]. split; [by eexists|].
    exists []. by rewrite app_nil_r.
  - split; [auto|]. split; exists []; by rewrite app_nil_r.
  - split; [auto|]. split; [exists []; by rewrite app_nil_r|].
    eexists. by rewrite fmap_app.
  - split; [auto|]. split; exists []; rewrite app_nil_r; [done|].
    rewrite list_fmap_insert. apply list_insert_id.
    by rewrite list_lookup_fmap, Hs.
Qed.

(** X2.  Over any history of requests the in-memory store only grows.  A
    lobby that exists keeps existing; [messages] is extended at its end and
    the messages already stored are not changed, so the messages of each
    lobby's view are extended at the end too; the (name, lobby) pairs of
    [senders] are extended at the end, so no sender is removed, renamed or
    moved to another lobby. *)
Theorem history_only_grows (st st' : store) :
  reaches st st' ->
  (forall id, is_Some (lobbies st !! id) -> is_Some (lobbies st' !! id))
  /\ (exists more, messages st' = messages st ++ more)
  /\ (forall id, exists more,
        filter (fun m => message.LobbyId m = id) (messages st')
        = filter (fun m => message.LobbyId m = id) (messages st) ++ more)
  /\ (exists more, sender_key <$> senders st'
                    = (sender_key <$> senders st) ++ more).
Proof.
  intros Hreach.
  enough (H : (forall id, is_Some (lobbies st !! id) ->
                          is_Some (lobbies st' !! id))
              /\ (exists more, messages st' = messages st ++ more)
              /\ (exists more, sender_key <$> senders st'
                                = (sender_key <$> senders st) ++ more)).
  { destruct H as (Hl & [more Hm] & Hs). split; [done|].
    split; [by eexists|]. split; [|done].
    intros id. rewrite Hm, filter_app. by eexists. }
  revert st st' Hreach. apply run_effect_ind.
  - intros st. split; [auto|]. split; exists []; by rewrite app_nil_r.
  - intros st st1 st2 Heff (IHl & [m2 IHm] & [s2 IHs]).
    apply effect_grows in Heff as (Hl & [m1 Hm] & [s1 Hs]).
    split; [auto|]. split.
    + exists (m1 ++ m2). by rewrite IHm, Hm, app_assoc.
    + exists (s1 ++ s2). by rewrite IHs, Hs, app_assoc.
Qed.

Lemma history_only_grows_witness :
  exists more,
    messages Sample.st_two_posts = messages Sample.st_alice ++ more.
Proof.
  destruct (history_only_grows Sample.st_alice Sample.st_two_posts)
    as (_ & Hm & _).
  - exists 0%nat, [PostMessage 100 (Some Sample.hello);
                   PostMessage 101 (Some Sample.hello)].
    vm_compute. reflexivity.
  - exact Hm.
Defined.

Lemma effect_refs st st' :
  effect st st' -> refs_resolve st -> refs_resolve st'.
Proof.
  intros Heff [Hm Hs]. pose proof (effect_grows _ _ Heff) as (Hgrow & _).
  destruct Heff as [|id Hid|m Hl Hid|Hfull|name lobbyId Hl Hrec|i s b Hi];
    simpl in *; split; simpl; auto.
  - intros m' [Hin|Hin]%elem_of_app; [auto|].
    by apply list_elem_of_singleton in Hin as ->.
  - intros s' [Hin|Hin]%elem_of_app; [auto|].
    by apply list_elem_of_singleton in Hin as ->.
  - intros s' [j Hj]%list_elem_of_lookup.
    destruct (decide (j = i)) as [->|Hne].
    + rewrite list_lookup_insert_eq in Hj by by eapply lookup_lt_Some.
      injection Hj as <-. simpl. apply Hs. by eapply list_elem_of_lookup_2.
    + rewrite list_lookup_insert_ne in Hj by done.
      apply Hs. by eapply list_elem_of_lookup_2.
Qed.

Lemma reaches_refs a b : reaches a b -> refs_resolve a -> refs_resolve b.
Proof.
  revert a b.
  apply (run_effect_ind (fun a b => refs_resolve a -> refs_resolve b)).
  - auto.
  - intros a b c Heff IH Ha. by apply IH, (effect_refs a).
Qed.

Lemma init_refs : refs_resolve init.
Proof. split; by intros ? ?%elem_of_nil. Qed.

(** X3.  In every store the server can be in, each stored message and each
    stored sender carries the id of a lobby that exists: [postMessage] and
    [enterLobby] append only after [doesLobbyExist] said yes, and no lobby
    is ever removed. *)
Theorem reachable_refs_resolve (st : store) :
  reachable st ->
  (forall m, m ∈ messages st -> is_Some (lobbies st !! message.LobbyId m))
  /\ (forall s, s ∈ senders st ->
                is_Some (lobbies st !! sender.LobbyId s)).
Proof.
  intros Hreach. apply (reaches_refs init st Hreach init_refs).
Qed.

Lemma reachable_refs_resolve_witness :
  is_Some (lobbies Sample.st_two_posts
             !! message.LobbyId (message.mk 1 "aaaaaa" "alice" "hello" 100)).
Proof.
  destruct (reachable_refs_resolve Sample.st_two_posts) as [Hm _].
  - exists 1%nat, Sample.history. vm_compute. reflexivity.
  - apply Hm. vm_compute. left.
Defined.

End MemEffects.

(** ** Creating and finding lobbies (in-memory variant) *)

Section MemLobbies.
Import Mem.

Lemma first_free_least taken src n i :
  (i < n)%nat ->
  taken (candidate src i) = false ->
  (forall j, (j < i)%nat -> taken (candidate src j) = true) ->
  first_free taken src 0 n = Some i.
Proof.
  intros Hi Hfree Hbefore.
  destruct (first_free taken src 0 n) as [i'|] eqn:Hff.
  - apply first_free_Some in Hff as (Hi' & Hfree' & Hbefore').
    f_equal. destruct (Nat.lt_trichotomy i' i) as [Hlt|[->|Hgt]]; [|done|].
    + rewrite Hbefore in Hfree' by done. done.
    + rewrite Hbefore' in Hfree by lia. done.
  - rewrite first_free_None in Hff. rewrite Hff in Hfree by lia. done.
Qed.

Lemma candidate_length src i :
  String.length (candidate src i) = LOBBY_ID_LENGTH.
Proof.
  unfold candidate, randSeq. cbn [fst].
  by rewrite string_of_list_length, randSeq_runes_length.
Qed.

(** X4.  [createLobby] examines the candidate drawn before the loop and
    those of the first nine retries, in order.  It creates the first of
    them that is not yet a lobby: its answer is 201 with that id, a string
    of six bytes, and the store changes by that one key of [lobbies].  When
    all ten are lobbies already it answers 500 and changes nothing. *)
Theorem createLobby_takes_first_free (src : rand_source) (st : store) :
  ((forall i, (i < 10)%nat -> is_Some (lobbies st !! candidate src i)) ->
   createLobby src st =
     (JSON StatusInternalServerError
           (H_message "Failed to generate unique id string!"), st))
  /\ (forall i,
        (i < 10)%nat ->
        lobbies st !! candidate src i = None ->
        (forall j, (j < i)%nat -> is_Some (lobbies st !! candidate src j)) ->
        createLobby src st =
          (JSON StatusCreated (J_string (candidate src i)),
           mkStore (messages st) (senders st)
                   (<[candidate src i := true]> (lobbies st))
                   (nextMessageId st))
        /\ String.length (candidate src i) = 6%nat).
Proof.
  split.
  - intros Hall. rewrite mem_createLobby_first_free.
    assert (Hff : first_free (doesLobbyExist st) src 0 10 = None).
    { apply first_free_None. intros i Hi.
      apply doesLobbyExist_true, Hall. lia. }
    by rewrite Hff.
  - intros i Hi Hfree Hbefore. split; [|apply candidate_length].
    rewrite mem_createLobby_first_free.
    rewrite (first_free_least _ src 10 i); [done..| |].
    + by apply doesLobbyExist_false.
    + intros j Hj. by apply doesLobbyExist_true, Hbefore.
Qed.

Lemma createLobby_takes_first_free_witness :
  createLobby Sample.a_then_b Sample.st_lobby =
    (JSON StatusCreated (J_string "bbbbbb"),
     mkStore [] [] (<["bbbbbb" := true]> Sample.one_lobby) 1).
Proof.
  destruct (createLobby_takes_first_free Sample.a_then_b Sample.st_lobby)
    as [_ Hfree].
  destruct (Hfree 1%nat) as [Heq _].
  - lia.
  - vm_compute. reflexivity.
  - intros j Hj. assert (j = 0%nat) as -> by lia.
    vm_compute. eexists. reflexivity.
  - exact Heq.
Defined.

(** X5.  A lobby stays findable.  Once [createLobby] has answered with an
    id, then after any further requests [lobbyExists] answers true for that
    id and [fetchLobbyData] answers 200 with the view of that id, and
    neither changes the store. *)
Theorem created_lobby_stays (src : rand_source) (st st1 st2 : store)
    (code : Z) (id : string) :
  createLobby src st = (JSON code (J_string id), st1) ->
  reaches st1 st2 ->
  lobbyExists id st2 = (JSON StatusOK (J_bool true), st2)
  /\ exists d, fetchLobbyData id st2 = (JSON StatusOK (J_lobbyData d), st2)
               /\ lobbyData.Id d = id.
Proof.
  intros Hcreate Hreach.
  apply mem_createLobby_returns_free in Hcreate as [_ Hnew].
  assert (Hl : is_Some (lobbies st2 !! id)).
  { destruct Hreach as (fuel & rqs & Hrun).
    apply (run_senders _ _ _ _ Hrun). by eexists. }
  split.
  - unfold lobbyExists.
    by rewrite (proj2 (doesLobbyExist_true st2 id) Hl).
  - eexists. split; [by apply mem_fetchLobbyData_ok|done].
Qed.

Lemma created_lobby_stays_witness :
  lobbyExists "aaaaaa" Sample.st_two_posts
    = (JSON StatusOK (J_bool true), Sample.st_two_posts).
Proof.
  destruct (created_lobby_stays Sample.always_a init Sample.st_lobby
              Sample.st_two_posts StatusCreated "aaaaaa") as [Hex _].
  - vm_compute. reflexivity.
  - exists 0%nat, [EnterLobby (Some Sample.alice);
                   PostMessage 100 (Some Sample.hello);
                   PostMessage 101 (Some Sample.hello)].
    vm_compute. reflexivity.
  - exact Hex.
Defined.

(** X6.  [lobbyExists] and [fetchLobbyData] agree and only read.
    [lobbyExists] always answers 200 with a boolean.  When it says true,
    [fetchLobbyData] answers 200 with a view; when it says false,
    [fetchLobbyData] answers 404 "lobby not found".  Both return the store
    they were given. *)
Theorem lobbyExists_agrees_with_fetch (st : store) (id : string) :
  (lobbyExists id st = (JSON StatusOK (J_bool true), st)
   /\ exists d, fetchLobbyData id st = (JSON StatusOK (J_lobbyData d), st))
  \/ (lobbyExists id st = (JSON StatusOK (J_bool false), st)
      /\ fetchLobbyData id st =
           (JSON StatusNotFound (H_message "lobby not found"), st)).
Proof.
  unfold lobbyExists, fetchLobbyData.
  destruct (doesLobbyExist st id) eqn:Hl.
  - left. rewrite constructLobbyData_ok by done. simpl. eauto.
  - right. by rewrite constructLobbyData_missing.
Qed.

End MemLobbies.

(** ** Replies and the store (in-memory variant) *)

Section MemReplies.
Import Mem.

(** X7.  A handler that answers with anything but 200 or 201 has not
    touched the store, and its answer is 400, 404 or 500 with a message.
    (The one call that changes the store without a success reply is the
    [postMessage] that panics in [append]: it writes no reply.) *)
Theorem error_reply_keeps_store (fuel : nat) (rq : request)
    (st st' : store) (code : Z) (obj : payload) :
  handle fuel rq st = Some (JSON code obj, st') ->
  code <> StatusOK -> code <> StatusCreated ->
  st' = st
  /\ (exists text, obj = H_message text)
  /\ (code = StatusBadRequest \/ code = StatusNotFound
      \/ code = StatusInternalServerError).
Proof.
  intros Hh Hok Hcreated.
  destruct rq as [id|now body|id|src|body|body]; simpl in Hh.
  - injection Hh as Hh. unfold fetchLobbyData in Hh.
    destruct (doesLobbyExist st id) eqn:Hl.
    + rewrite constructLobbyData_ok in Hh by done.
      by injection Hh as <- <- <-.
    + rewrite constructLobbyData_missing in Hh by done.
      injection Hh as <- <- <-. eauto 6.
  - injection Hh as Hpost. destruct body as [msg|];
      [|injection Hpost as <- <- <-; eauto 6].
    destruct (lobbies st !! message.LobbyId msg) as [b|] eqn:Hl.
    + destruct (Z.lt_ge_cases (Z.of_nat (length (messages st))) max_int)
        as [Hlen|Hlen].
      * rewrite postMessage_created in Hpost by (rewrite ?Hl; eauto).
        by injection Hpost as <- <- <-.
      * by rewrite postMessage_panics in Hpost by (rewrite ?Hl; eauto).
    + rewrite postMessage_unknown in Hpost by done.
      injection Hpost as <- <- <-. eauto 6.
  - injection Hh as Hh. unfold lobbyExists in Hh.
    by destruct (negb _); injection Hh as <- <- <-.
  - injection Hh as Hcreate. rewrite mem_createLobby_first_free in Hcreate.
    destruct (first_free _ src 0 10) as [i|];
      injection Hcreate as <- <- <-; [done|eauto 6].
  - injection Hh as Henter. destruct body as [enterReq|];
      [|injection Henter as <- <- <-; eauto 6].
    destruct (lobbies st !! sender.LobbyId enterReq) as [b|] eqn:Hl;
      [|rewrite enterLobby_unknown in Henter by done;
        injection Henter as <- <- <-; eauto 6].
    destruct (decide (records_for (sender.Username enterReq)
                        (sender.LobbyId enterReq) (senders st) = []))
      as [Habs|Hpres].
    + destruct (Z.lt_ge_cases (Z.of_nat (length (senders st))) max_int)
        as [Hlen|Hlen].
      * destruct (enterLobby_absent st enterReq) as [d' Heq];
          [rewrite Hl; eauto|done..|].
        rewrite Heq in Henter. by injection Henter as <- <- <-.
      * by rewrite enterLobby_full in Henter by (rewrite ?Hl; eauto).
    + destruct (enterLobby_present st enterReq) as [d' Heq];
        [rewrite Hl; eauto|done|].
      rewrite Heq in Henter. by injection Henter as <- <- <-.
  - unfold updateTyping in Hh.
    destruct body as [request|]; [|injection Hh as <- <- <-; eauto 6].
    destruct (updateTyping_scan _ _ _ _) as [[snds found]|] eqn:Hscan;
      [|done].
    apply updateTyping_scan_inv in Hscan
      as [(-> & -> & _)|(-> & s & Hs & _ & ->)];
      injection Hh as <- <- <-; [|done].
    rewrite store_eta. eauto 6.
Qed.

Lemma error_reply_keeps_store_witness :
  snd (postMessage 5 (Some (message.mk 0 "zzzzzz" "bob" "hi" 0))
                   Sample.st_alice) = Sample.st_alice.
Proof.
  destruct (error_reply_keeps_store 0
              (PostMessage 5 (Some (message.mk 0 "zzzzzz" "bob" "hi" 0)))
              Sample.st_alice
              (snd (postMessage 5 (Some (message.mk 0 "zzzzzz" "bob" "hi" 0))
                                Sample.st_alice))
              StatusBadRequest
              (H_message "Message did not belong to a lobby!"))
    as [Heq _].
  - vm_compute. reflexivity.
  - vm_compute. discriminate.
  - vm_compute. discriminate.
  - exact Heq.
Defined.

End MemReplies.

(** ** Joining and typing (in-memory variant) *)

Section MemSenders.
Import Mem.

(** X8.  The first [enterLobby] under a name in a lobby that exists (with
    room left in the slice) appends one sender with that name and lobby and
    with [IsTyping] false, whatever [is_typing] the request carried, and
    changes nothing else.  Its answer is 200 with the view of the lobby,
    whose senders end with the new one. *)
Theorem enterLobby_first_join (st : store) (enterReq : sender.t) :
  is_Some (lobbies st !! sender.LobbyId enterReq) ->
  records_for (sender.Username enterReq) (sender.LobbyId enterReq)
              (senders st) = [] ->
  Z.of_nat (length (senders st)) < max_int ->
  let joined := sender.mk (sender.Username enterReq)
                          (sender.LobbyId enterReq) false in
  enterLobby (Some enterReq) st =
    (JSON StatusOK
       (J_lobbyData
          (lobbyData.mk
             (slice_of (filter (fun m => message.LobbyId m
                                         = sender.LobbyId enterReq)
                               (messages st)))
             (slice_of (filter (fun s => sender.LobbyId s
                                         = sender.LobbyId enterReq)
                               (senders st) ++ [joined]))
             (sender.LobbyId enterReq))),
     mkStore (messages st) (senders st ++ [joined]) (lobbies st)
             (nextMessageId st)).
Proof.
  intros Hl Hrec Hlen joined. apply doesLobbyExist_true in Hl.
  unfold enterLobby, go_append. rewrite Hl, enterLobby_add_records.
  rewrite bool_decide_eq_true_2 by done. simpl.
  destruct (Z.ltb_spec (Z.of_nat (length (senders st))) max_int); [|lia].
  rewrite constructLobbyData_ok by done. simpl.
  by rewrite filter_app, filter_cons, decide_True, filter_nil.
Qed.

Lemma enterLobby_first_join_witness :
  snd (enterLobby (Some Sample.alice_typing) Sample.st_lobby)
    = Sample.st_alice.
Proof.
  rewrite (enterLobby_first_join Sample.st_lobby Sample.alice_typing).
  - reflexivity.
  - vm_compute. eexists. reflexivity.
  - reflexivity.
  - vm_compute. reflexivity.
Defined.

(** X9.  After [updateTyping] has answered 200 in a store the server can be
    in, [fetchLobbyData] for the lobby of the request answers 200 with a
    view that lists the sender of the request with the requested
    [IsTyping]; and the same update, sent again, answers 200 and leaves
    the store as it is. *)
Theorem updateTyping_then_fetch (fuel : nat) (request : sender.t)
    (st st' : store) :
  reachable st ->
  updateTyping fuel (Some request) st = Some (JSON StatusOK J_empty, st') ->
  (exists d snds,
     fetchLobbyData (sender.LobbyId request) st'
       = (JSON StatusOK (J_lobbyData d), st')
     /\ lobbyData.Senders d = slice_of snds
     /\ sender.mk (sender.Username request) (sender.LobbyId request)
                  (sender.IsTyping request) ∈ snds)
  /\ updateTyping fuel (Some request) st'
       = Some (JSON StatusOK J_empty, st').
Proof.
  intros Hreach Hup.
  destruct (reaches_refs init st Hreach init_refs) as [_ Hrefs].
  unfold updateTyping in Hup.
  destruct (updateTyping_scan fuel request (senders st) 0)
    as [[snds' found]|] eqn:Hscan; [|done].
  destruct fuel as [|fuel]; [done|].
  apply updateTyping_scan_inv in Hscan
    as [(-> & _ & _)|(-> & s & Hs & [Hu Hl] & ->)]; [done|].
  injection Hup as <-.
  set (s' := sender.mk (sender.Username s) (sender.LobbyId s)
                       (sender.IsTyping request)).
  assert (Hlen : (0 < length (senders st))%nat) by by eapply lookup_lt_Some.
  split.
  - eexists _, _. split.
    { apply mem_fetchLobbyData_ok. simpl. rewrite <- Hl.
      apply Hrefs. by eapply list_elem_of_lookup_2. }
    split; [reflexivity|].
    simpl. apply list_elem_of_filter. split; [done|].
    rewrite <- Hu, <- Hl. by apply list_elem_of_insert.
  - unfold updateTyping. cbn [senders].
    rewrite (updateTyping_scan_hit request _ 0 s').
    + by rewrite list_insert_insert_eq.
    + by apply list_lookup_insert_eq.
    + done.
Qed.

Lemma updateTyping_then_fetch_witness :
  updateTyping 1 (Some Sample.alice_typing) Sample.st_alice_typing
    = Some (JSON StatusOK J_empty, Sample.st_alice_typing).
Proof.
  destruct (updateTyping_then_fetch 1 Sample.alice_typing Sample.st_alice
              Sample.st_alice_typing) as [_ Hagain].
  - exists 0%nat, [CreateLobby Sample.always_a;
                   EnterLobby (Some Sample.alice)].
    vm_compute. reflexivity.
  - vm_compute. reflexivity.
  - exact Hagain.
Defined.

(** X21.  In every store the server can be in, a (name, lobby) pair has at
    most one sender record: two positions of [senders] that hold the same
    name and the same lobby are one position. *)
Theorem senders_pairs_unique (st : store) (i j : nat) (s s' : sender.t) :
  reachable st ->
  senders st !! i = Some s ->
  senders st !! j = Some s' ->
  sender.Username s = sender.Username s' ->
  sender.LobbyId s = sender.LobbyId s' ->
  i = j.
Proof.
  intros Hreach Hi Hj Hu Hl.
  apply reachable_unique_senders in Hreach.
  apply (NoDup_lookup _ i j (sender_key s) Hreach).
  - by rewrite list_lookup_fmap, Hi.
  - rewrite list_lookup_fmap, Hj. simpl. unfold sender_key.
    by rewrite Hu, Hl.
Qed.

Lemma senders_pairs_unique_witness :
  senders Sample.st_two_posts !! 0%nat = Some Sample.alice
  /\ 0%nat = 0%nat.
Proof.
  split; [reflexivity|].
  apply (senders_pairs_unique Sample.st_two_posts 0 0 Sample.alice
                              Sample.alice).
  - exists 1%nat, Sample.history. vm_compute. reflexivity.
  - reflexivity.
  - reflexivity.
  - reflexivity.
  - reflexivity.
Defined.

End MemSenders.

(** * Further properties of the database variant *)

(** ** When the database does not answer *)

Section SqlFailures.

(** [doesLobbyExist] in any world: it says yes exactly when the call was
    answered and found a row. *)
Lemma sql_doesLobbyExist_cases id w :
  Sql.doesLobbyExist id w =
    (match Sql.faults w (Sql.calls w) with
     | Some _ => false
     | None => bool_decide (id ∈ Sql.lobbies (Sql.db w))
     end, Sql.after_calls 1 w).
Proof.
  unfold Sql.doesLobbyExist, mbind, Sql.M_bind, Sql.call.
  destruct (Sql.faults w (Sql.calls w)) as [err|]; [done|]. simpl.
  destruct (Z.eqb_spec
    (Z.of_nat (length (filter (fun l => l = id) (Sql.lobbies (Sql.db w))))) 0)
    as [E|E]; rewrite count_zero_filter, filter_eq_nil_not_elem in E.
  - by rewrite bool_decide_eq_false_2.
  - rewrite bool_decide_eq_true_2; [done|]. by apply dec_stable.
Qed.

(** X10.  A failure of the existence query is read as "no such lobby".
    When the first database call of the handler fails, [lobbyExists]
    answers 200 with false, [fetchLobbyData] 404 "lobby not found",
    [enterLobby] 400 "Lobby does not exist!" and [postMessage] (for a body
    within the limit) 400 "Message did not belong to a lobby!", also for a
    lobby that has a row; the error text of the driver is dropped and the
    tables are not touched. *)
Theorem failed_existence_query_reads_as_missing
    (w : Sql.world) (id err : string) :
  Sql.faults w (Sql.calls w) = Some err ->
  Sql.lobbyExists id w = ([JSON StatusOK (J_bool false)], Sql.after_calls 1 w)
  /\ Sql.fetchLobbyData id w =
       ([JSON StatusNotFound (H_message "lobby not found")],
        Sql.after_calls 1 w)
  /\ (forall enterReq,
        sender.LobbyId enterReq = id ->
        Sql.enterLobby (Some enterReq) w =
          ([JSON StatusBadRequest (H_message "Lobby does not exist!")],
           Sql.after_calls 1 w))
  /\ (forall now msg,
        message.LobbyId msg = id ->
        (String.length (message.MessageString msg) <= Sql.MAX_MSG_LEN)%nat ->
        Sql.postMessage now (Some msg) w =
          ([JSON StatusBadRequest
                 (H_message "Message did not belong to a lobby!")],
           Sql.after_calls 1 w)).
Proof.
  intros Hfault.
  assert (Hno : Sql.doesLobbyExist id w = (false, Sql.after_calls 1 w))
    by by rewrite sql_doesLobbyExist_cases, Hfault.
  split; [|split; [|split]].
  - unfold Sql.lobbyExists, mbind, Sql.M_bind. by rewrite Hno.
  - unfold Sql.fetchLobbyData, Sql.constructLobbyData, mbind, Sql.M_bind.
    by rewrite Hno.
  - intros enterReq <-. unfold Sql.enterLobby, mbind, Sql.M_bind.
    by rewrite Hno.
  - intros now msg <- Hlen. unfold Sql.postMessage.
    destruct (Nat.ltb_spec Sql.MAX_MSG_LEN
                (String.length (message.MessageString msg))); [lia|].
    unfold mbind, Sql.M_bind. by rewrite Hno.
Qed.

Lemma failed_existence_query_reads_as_missing_witness :
  "aaaaaa" ∈ Sql.lobbies (Sql.db Sample.w_down)
  /\ Sql.lobbyExists "aaaaaa" Sample.w_down
     = ([JSON StatusOK (J_bool false)], Sql.after_calls 1 Sample.w_down).
Proof.
  split; [vm_compute; left|].
  destruct (failed_existence_query_reads_as_missing Sample.w_down "aaaaaa"
              "bad connection") as [Hex _].
  - reflexivity.
  - exact Hex.
Defined.

Lemma call_answered {A} (stmt : Sql.database -> A * Sql.database) w :
  Sql.faults w (Sql.calls w) = None ->
  Sql.call stmt w =
    (inl (stmt (Sql.db w)).1,
     Sql.mkWorld (stmt (Sql.db w)).2 (Sql.faults w) (S (Sql.calls w))).
Proof. intros H. unfold Sql.call. rewrite H. by destruct (stmt (Sql.db w)). Qed.

(** The view builder when its three calls are answered. *)
Lemma constructLobbyData_answered id w :
  Sql.faults w (Sql.calls w) = None ->
  Sql.faults w (1 + Sql.calls w)%nat = None ->
  Sql.faults w (2 + Sql.calls w)%nat = None ->
  id ∈ Sql.lobbies (Sql.db w) ->
  Sql.constructLobbyData id w =
    (lobbyData.mk
       (slice_of (filter (fun m => message.LobbyId m = id)
                         (Sql.message (Sql.db w))))
       (slice_of (filter (fun s => sender.LobbyId s = id)
                         (Sql.sender (Sql.db w))))
       id, None, Sql.after_calls 3 w).
Proof.
  intros H0 H1 H2 Hin. unfold Sql.constructLobbyData, mbind, Sql.M_bind.
  rewrite sql_doesLobbyExist_cases, H0, bool_decide_eq_true_2 by done.
  simpl. unfold Sql.getMessagesFor, Sql.getSendersFor, mbind, Sql.M_bind.
  rewrite call_answered by done. simpl.
  rewrite call_answered by done. done.
Qed.

(** X11.  [postMessage] when the [INSERT] fails and the other calls are
    answered.  The handler writes 400 with the error and does not return:
    it goes on to build the view and writes a second reply, 201 with the
    view of the lobby.  No row was inserted, so that view is the one from
    before the request and does not hold the message. *)
Theorem postMessage_insert_failure
    (w : Sql.world) (now : Z) (msg : message.t) (err : string) :
  (String.length (message.MessageString msg) <= Sql.MAX_MSG_LEN)%nat ->
  message.LobbyId msg ∈ Sql.lobbies (Sql.db w) ->
  Sql.faults w (Sql.calls w) = None ->
  Sql.faults w (1 + Sql.calls w)%nat = Some err ->
  Sql.faults w (2 + Sql.calls w)%nat = None ->
  Sql.faults w (3 + Sql.calls w)%nat = None ->
  Sql.faults w (4 + Sql.calls w)%nat = None ->
  Sql.postMessage now (Some msg) w =
    ([JSON StatusBadRequest (H_message ("addAlbum: " +:+ err));
      JSON StatusCreated
        (J_lobbyData
           (lobbyData.mk
              (slice_of (filter (fun m => message.LobbyId m
                                          = message.LobbyId msg)
                                (Sql.message (Sql.db w))))
              (slice_of (filter (fun s => sender.LobbyId s
                                          = message.LobbyId msg)
                                (Sql.sender (Sql.db w))))
              (message.LobbyId msg)))],
     Sql.after_calls 5 w).
Proof.
  intros Hlen Hin H0 H1 H2 H3 H4. unfold Sql.postMessage.
  destruct (Nat.ltb_spec Sql.MAX_MSG_LEN
              (String.length (message.MessageString msg))); [lia|].
  unfold mbind, Sql.M_bind.
  rewrite sql_doesLobbyExist_cases, H0, bool_decide_eq_true_2 by done.
  simpl. unfold Sql.appendMessage, mbind, Sql.M_bind.
  rewrite (call_fault _ _ err) by done. simpl.
  rewrite constructLobbyData_answered by done. done.
Qed.

Lemma postMessage_insert_failure_witness :
  length (fst (Sql.postMessage 9 (Some Sample.hello) Sample.w_second_fails))
    = 2%nat
  /\ Sql.db (snd (Sql.postMessage 9 (Some Sample.hello)
                                  Sample.w_second_fails))
     = Sql.db Sample.w_second_fails.
Proof.
  rewrite (postMessage_insert_failure Sample.w_second_fails 9 Sample.hello
             "bad connection").
  - split; reflexivity.
  - vm_compute. lia.
  - vm_compute. left.
  - reflexivity.
  - reflexivity.
  - reflexivity.
  - reflexivity.
  - reflexivity.
Defined.

(** X12.  [createLobby] when the first candidate is free and the [INSERT]
    fails.  The handler writes 500 with the error and does not return: it
    writes a second reply, 201 with the id, although no row for that id
    was inserted. *)
Theorem createLobby_insert_failure
    (w : Sql.world) (src : rand_source) (err : string) :
  candidate src 0 ∉ Sql.lobbies (Sql.db w) ->
  Sql.faults w (1 + Sql.calls w)%nat = Some err ->
  Sql.createLobby src w =
    ([JSON StatusInternalServerError (H_message ("insert lobby: " +:+ err));
      JSON StatusCreated (J_string (candidate src 0))],
     Sql.after_calls 2 w).
Proof.
  intros Hfree Hfault. unfold Sql.createLobby.
  pose proof (randSeq_candidate src 0) as Hfirst.
  change (0 * LOBBY_ID_LENGTH)%nat with 0%nat in Hfirst.
  rewrite Hfirst. cbn [Sql.createLobby_loop]. unfold mbind, Sql.M_bind.
  rewrite sql_doesLobbyExist_missing by done. simpl.
  unfold Sql.insertLobby, mbind, Sql.M_bind.
  by rewrite (call_fault _ _ err).
Qed.

Lemma createLobby_insert_failure_witness :
  Sql.createLobby Sample.a_then_b
    (Sql.mkWorld Sql.empty_db (Sql.faults Sample.w_second_fails) 0)
  = ([JSON StatusInternalServerError
           (H_message "insert lobby: bad connection");
      JSON StatusCreated (J_string "aaaaaa")],
     Sql.mkWorld Sql.empty_db (Sql.faults Sample.w_second_fails) 2).
Proof.
  rewrite (createLobby_insert_failure _ Sample.a_then_b "bad connection").
  - reflexivity.
  - vm_compute. intros H. inversion H.
  - reflexivity.
Defined.

(** X13.  [addSender] when the existence query fails and the [INSERT] is
    answered.  [senderExists] reads the failure as "no such sender", so a
    row is inserted whether or not the pair already has one: the pair ends
    up with one row more than before, the new one with [isTyping] false. *)
Theorem addSender_after_failed_query
    (w : Sql.world) (enterReq : sender.t) (err : string) :
  Sql.faults w (Sql.calls w) = Some err ->
  Sql.faults w (1 + Sql.calls w)%nat = None ->
  let joined := sender.mk (sender.Username enterReq)
                          (sender.LobbyId enterReq) false in
  Sql.addSender enterReq w =
    (None,
     Sql.mkWorld
       (Sql.mkDb (Sql.lobbies (Sql.db w)) (Sql.message (Sql.db w))
                 (Sql.sender (Sql.db w) ++ [joined])
                 (Sql.auto_increment (Sql.db w)))
       (Sql.faults w) (2 + Sql.calls w))
  /\ length (records_for (sender.Username enterReq)
                         (sender.LobbyId enterReq)
                         (Sql.sender (Sql.db w) ++ [joined]))
     = S (length (records_for (sender.Username enterReq)
                              (sender.LobbyId enterReq)
                              (Sql.sender (Sql.db w)))).
Proof.
  intros H0 H1 joined. split.
  - unfold Sql.addSender, Sql.senderExists, mbind, Sql.M_bind.
    rewrite (call_fault _ _ err) by done. simpl.
    by rewrite call_answered.
  - unfold records_for. rewrite filter_app, filter_cons.
    rewrite decide_True by done. rewrite length_app. simpl. lia.
Qed.

Lemma addSender_after_failed_query_witness :
  Sql.sender (Sql.db (snd (Sql.addSender Sample.alice Sample.w_first_fails)))
    = [Sample.alice; Sample.alice].
Proof.
  destruct (addSender_after_failed_query Sample.w_first_fails Sample.alice
              "bad connection") as [Heq _].
  - reflexivity.
  - reflexivity.
  - rewrite Heq. reflexivity.
Defined.

End SqlFailures.

(** ** Creating a lobby in the database *)

Section SqlCreating.

Lemma after_calls_after_calls a b w :
  Sql.after_calls a (Sql.after_calls b w) = Sql.after_calls (a + b) w.
Proof. unfold Sql.after_calls. simpl. f_equal. lia. Qed.

(** The retry loop on a database that answers: one query per candidate
    examined, and one more when the budget runs out. *)
Lemma sql_createLobby_loop src n j w :
  Sql.healthy w ->
  Sql.createLobby_loop src n (candidate src j) (S j * LOBBY_ID_LENGTH) w =
    match first_free (fun id => bool_decide (id ∈ Sql.lobbies (Sql.db w)))
                     src j n with
    | Some i => (candidate src i, (n - (i - j))%nat,
                 Sql.after_calls (S (i - j)) w)
    | None => (candidate src (j + n), 0%nat, Sql.after_calls (S n) w)
    end.
Proof.
  revert j w. induction n as [|n IH]; intros j w H;
    cbn [Sql.createLobby_loop first_free]; unfold mbind, Sql.M_bind;
    rewrite doesLobbyExist_healthy by done.
  - by rewrite Nat.add_0_r.
  - destruct (bool_decide (candidate src j ∈ Sql.lobbies (Sql.db w)))
      eqn:Hj.
    + rewrite (randSeq_candidate src (S j)).
      rewrite IH by by apply healthy_after_calls.
      change (Sql.db (Sql.after_calls 1 w)) with (Sql.db w).
      destruct (first_free _ src (S j) n) as [i|] eqn:Hi.
      * apply first_free_Some in Hi as (Hi & _).
        rewrite after_calls_after_calls. f_equal; f_equal; lia.
      * rewrite after_calls_after_calls. f_equal; f_equal; f_equal; lia.
    + simpl. f_equal; f_equal; lia.
Qed.

(** X14.  [createLobby] on a database that answers examines the candidate
    drawn before the loop and those of the first nine retries, in order,
    and inserts the first one that has no row: it answers 201 with that
    id, adds that one row to [lobbies] and changes no other table.  When
    all ten have rows it answers 500 and inserts nothing. *)
Theorem sql_createLobby_takes_first_free (src : rand_source) (w : Sql.world) :
  Sql.healthy w ->
  ((forall i, (i < 10)%nat -> candidate src i ∈ Sql.lobbies (Sql.db w)) ->
   Sql.createLobby src w =
     ([JSON StatusInternalServerError
            (H_message "Failed to generate unique id string!")],
      Sql.after_calls 11 w))
  /\ (forall i,
        (i < 10)%nat ->
        candidate src i ∉ Sql.lobbies (Sql.db w) ->
        (forall j, (j < i)%nat -> candidate src j ∈ Sql.lobbies (Sql.db w)) ->
        Sql.createLobby src w =
          ([JSON StatusCreated (J_string (candidate src i))],
           Sql.mkWorld
             (Sql.mkDb (Sql.lobbies (Sql.db w) ++ [candidate src i])
                       (Sql.message (Sql.db w)) (Sql.sender (Sql.db w))
                       (Sql.auto_increment (Sql.db w)))
             (Sql.faults w) (i + 2 + Sql.calls w))).
Proof.
  intros H.
  pose proof (randSeq_candidate src 0) as Hfirst.
  change (0 * LOBBY_ID_LENGTH)%nat with 0%nat in Hfirst.
  split.
  - intros Hall. unfold Sql.createLobby. rewrite Hfirst.
    unfold mbind, Sql.M_bind. rewrite sql_createLobby_loop by done.
    assert (Hff : first_free
              (fun id => bool_decide (id ∈ Sql.lobbies (Sql.db w)))
              src 0 10 = None).
    { apply first_free_None. intros i Hi.
      apply bool_decide_eq_true_2, Hall. lia. }
    by rewrite Hff.
  - intros i Hi Hfree Hbefore. unfold Sql.createLobby. rewrite Hfirst.
    unfold mbind, Sql.M_bind. rewrite sql_createLobby_loop by done.
    rewrite (first_free_least _ src 10 i); [|done| |].
    + destruct (Nat.eqb_spec (10 - (i - 0)) 0); [lia|].
      unfold Sql.insertLobby, mbind, Sql.M_bind.
      rewrite call_healthy by by apply healthy_after_calls.
      simpl. do 3 f_equal. lia.
    + by apply bool_decide_eq_false_2.
    + intros j Hj. by apply bool_decide_eq_true_2, Hbefore.
Qed.

Lemma sql_createLobby_takes_first_free_witness :
  Sql.createLobby Sample.a_then_b Sample.w_lobby =
    ([JSON StatusCreated (J_string "bbbbbb")],
     Sql.mkWorld (Sql.mkDb ["aaaaaa"; "bbbbbb"] [] [] 1) Sample.no_faults 3).
Proof.
  destruct (sql_createLobby_takes_first_free Sample.a_then_b Sample.w_lobby)
    as [_ Hfree].
  - intros k. reflexivity.
  - rewrite (Hfree 1%nat).
    + reflexivity.
    + lia.
    + vm_compute. intros Hin. inversion Hin as [|? ? ? Hin']. inversion Hin'.
    + intros j Hj. assert (j = 0%nat) as -> by lia. vm_compute. left.
Defined.

End SqlCreating.

(** ** Joining, typing and posting in the database *)

Section SqlSenders.

(** X15.  [enterLobby] refuses a name of more than 32 bytes, but only
    after it has looked for the lobby.  With such a name the answer is 400
    "Username is too long!" when the lobby has a row and the query was
    answered, and 400 "Lobby does not exist!" when the lobby has no row.
    Either way one database call was made and no row was inserted. *)
Theorem sql_enterLobby_long_name (w : Sql.world) (enterReq : sender.t) :
  (Sql.MAX_USERNAME_LEN < String.length (sender.Username enterReq))%nat ->
  (Sql.faults w (Sql.calls w) = None ->
   sender.LobbyId enterReq ∈ Sql.lobbies (Sql.db w) ->
   Sql.enterLobby (Some enterReq) w =
     ([JSON StatusBadRequest (H_message "Username is too long!")],
      Sql.after_calls 1 w))
  /\ (sender.LobbyId enterReq ∉ Sql.lobbies (Sql.db w) ->
      Sql.enterLobby (Some enterReq) w =
        ([JSON StatusBadRequest (H_message "Lobby does not exist!")],
         Sql.after_calls 1 w)).
Proof.
  intros Hlong. split.
  - intros H0 Hin. unfold Sql.enterLobby, mbind, Sql.M_bind.
    rewrite sql_doesLobbyExist_cases, H0, bool_decide_eq_true_2 by done.
    simpl.
    by destruct (Nat.ltb_spec Sql.MAX_USERNAME_LEN
                   (String.length (sender.Username enterReq))); [|lia].
  - intros Hout. unfold Sql.enterLobby, mbind, Sql.M_bind.
    by rewrite sql_doesLobbyExist_missing.
Qed.

Lemma sql_enterLobby_long_name_witness :
  Sql.enterLobby (Some (sender.mk Sample.long_name "aaaaaa" false))
                 Sample.w_alice =
    ([JSON StatusBadRequest (H_message "Username is too long!")],
     Sql.after_calls 1 Sample.w_alice).
Proof.
  destruct (sql_enterLobby_long_name Sample.w_alice
              (sender.mk Sample.long_name "aaaaaa" false)) as [Hin _].
  - vm_compute. lia.
  - apply Hin.
    + reflexivity.
    + vm_compute. left.
Defined.

(** X16.  [enterLobby] with a name of at most 32 bytes, in a lobby that has
    a row, on a database that answers: the answer is 200 with the view of
    the lobby, and afterwards the pair has a row.  If it had none, exactly
    one row was appended to [sender], with [isTyping] false whatever the
    request carried; if it had one, the tables are as before. *)
Theorem sql_enterLobby_joins (w : Sql.world) (enterReq : sender.t) :
  Sql.healthy w ->
  (String.length (sender.Username enterReq) <= Sql.MAX_USERNAME_LEN)%nat ->
  sender.LobbyId enterReq ∈ Sql.lobbies (Sql.db w) ->
  exists d w',
    Sql.enterLobby (Some enterReq) w = ([JSON StatusOK (J_lobbyData d)], w')
    /\ lobbyData.Id d = sender.LobbyId enterReq
    /\ lobbyData.Senders d =
         slice_of (filter (fun s => sender.LobbyId s = sender.LobbyId enterReq)
                          (Sql.sender (Sql.db w')))
    /\ records_for (sender.Username enterReq) (sender.LobbyId enterReq)
                   (Sql.sender (Sql.db w')) <> []
    /\ Sql.lobbies (Sql.db w') = Sql.lobbies (Sql.db w)
    /\ Sql.message (Sql.db w') = Sql.message (Sql.db w)
    /\ (records_for (sender.Username enterReq) (sender.LobbyId enterReq)
                    (Sql.sender (Sql.db w)) = [] ->
        Sql.sender (Sql.db w') =
          Sql.sender (Sql.db w)
            ++ [sender.mk (sender.Username enterReq)
                          (sender.LobbyId enterReq) false])
    /\ (records_for (sender.Username enterReq) (sender.LobbyId enterReq)
                    (Sql.sender (Sql.db w)) <> [] ->
        Sql.db w' = Sql.db w).
Proof.
  intros H Hlen Hin. unfold Sql.enterLobby, mbind, Sql.M_bind.
  rewrite doesLobbyExist_healthy, bool_decide_eq_true_2 by done. simpl.
  destruct (Nat.ltb_spec Sql.MAX_USERNAME_LEN
              (String.length (sender.Username enterReq))); [lia|].
  destruct (decide (records_for (sender.Username enterReq)
                      (sender.LobbyId enterReq)
                      (Sql.sender (Sql.db w)) = [])) as [Habs|Hpres].
  - rewrite addSender_absent by (done || by apply healthy_after_calls).
    rewrite constructLobbyData_healthy; [|intros k; apply H|done].
    eexists _, _. split; [reflexivity|]. simpl.
    do 2 (split; [done|]). split.
    + unfold records_for. rewrite filter_app, filter_cons.
      rewrite decide_True by done.
      intros Hnil. by apply app_eq_nil in Hnil as [_ ?].
    + by repeat split.
  - rewrite addSender_present by (done || by apply healthy_after_calls).
    rewrite constructLobbyData_healthy;
      [|by do 2 apply healthy_after_calls|done].
    eexists _, _. split; [reflexivity|]. simpl.
    by repeat split.
Qed.

Lemma sql_enterLobby_joins_witness :
  exists d w',
    Sql.enterLobby (Some Sample.alice_typing) Sample.w_lobby
      = ([JSON StatusOK (J_lobbyData d)], w')
    /\ Sql.sender (Sql.db w') = [Sample.alice].
Proof.
  destruct (sql_enterLobby_joins Sample.w_lobby Sample.alice_typing)
    as (d & w' & Heq & _ & _ & _ & _ & _ & Hnew & _).
  - intros k. reflexivity.
  - vm_compute. lia.
  - vm_compute. left.
  - exists d, w'. split; [exact Heq|]. apply Hnew. reflexivity.
Defined.

(** X17.  [updateTyping] makes one database call.  When it is answered the
    reply is 200 and the only change is in [sender]: every row of the named
    pair gets the requested [isTyping] and keeps its name and lobby, every
    other row is as before, and no row is added or removed.  When it fails
    the reply is 404 with the error text and the tables are as before. *)
Theorem sql_updateTyping_effect (w : Sql.world) (request : sender.t) :
  (Sql.faults w (Sql.calls w) = None ->
   exists w',
     Sql.updateTyping (Some request) w = ([JSON StatusOK J_empty], w')
     /\ Sql.lobbies (Sql.db w') = Sql.lobbies (Sql.db w)
     /\ Sql.message (Sql.db w') = Sql.message (Sql.db w)
     /\ Sql.auto_increment (Sql.db w') = Sql.auto_increment (Sql.db w)
     /\ length (Sql.sender (Sql.db w')) = length (Sql.sender (Sql.db w))
     /\ forall i s,
          Sql.sender (Sql.db w) !! i = Some s ->
          Sql.sender (Sql.db w') !! i =
            Some (if decide (sender_key s = sender_key request)
                  then sender.mk (sender.Username s) (sender.LobbyId s)
                                 (sender.IsTyping request)
                  else s))
  /\ (forall err,
        Sql.faults w (Sql.calls w) = Some err ->
        Sql.updateTyping (Some request) w =
          ([JSON StatusNotFound (H_message err)], Sql.after_calls 1 w)).
Proof.
  split.
  - intros H0. unfold Sql.updateTyping, Sql.setTyping, mbind, Sql.M_bind.
    rewrite call_answered by done. simpl.
    eexists. split; [reflexivity|]. simpl.
    do 3 (split; [done|]). split; [by rewrite length_map|].
    intros i s Hi. rewrite list_lookup_fmap, Hi. simpl. f_equal.
    unfold sender_key.
    destruct (decide (sender.LobbyId s = sender.LobbyId request
                      /\ sender.Username s = sender.Username request))
      as [[Hl Hu]|Hne].
    + by rewrite decide_True by congruence.
    + rewrite decide_False; [done|]. intros [= ? ?]. by apply Hne.
  - intros err H0. unfold Sql.updateTyping, Sql.setTyping, mbind, Sql.M_bind.
    by rewrite (call_fault _ _ err).
Qed.

Lemma sql_updateTyping_effect_witness :
  Sql.sender (Sql.db (snd (Sql.updateTyping (Some Sample.alice_typing)
                                            Sample.w_alice)))
    !! 0%nat = Some Sample.alice_typing
  /\ Sql.updateTyping (Some Sample.alice_typing) Sample.w_down =
       ([JSON StatusNotFound (H_message "bad connection")],
        Sql.after_calls 1 Sample.w_down).
Proof.
  split.
  - destruct (sql_updateTyping_effect Sample.w_alice Sample.alice_typing)
      as [Hok _].
    destruct Hok as (w' & Heq & _ & _ & _ & _ & Hrows); [reflexivity|].
    rewrite Heq. apply (Hrows 0%nat Sample.alice). reflexivity.
  - destruct (sql_updateTyping_effect Sample.w_down Sample.alice_typing)
      as [_ Hfail].
    apply Hfail. reflexivity.
Defined.

(** X18.  [postMessage] with a body of at most 512 bytes, in a lobby that
    has a row, on a database that answers: exactly one row is appended to
    [message], carrying the lobby, sender name and body of the request and
    the time read by the handler (the id and the timestamp sent by the
    client are not used); no other table changes; the answer is 201 with
    the view of the lobby, whose last message is that row. *)
Theorem sql_postMessage_stores (w : Sql.world) (now : Z) (msg : message.t) :
  Sql.healthy w ->
  (String.length (message.MessageString msg) <= Sql.MAX_MSG_LEN)%nat ->
  message.LobbyId msg ∈ Sql.lobbies (Sql.db w) ->
  exists d msgs row w',
    Sql.postMessage now (Some msg) w = ([JSON StatusCreated (J_lobbyData d)], w')
    /\ lobbyData.Id d = message.LobbyId msg
    /\ lobbyData.Messages d = slice_of msgs
    /\ last msgs = Some row
    /\ message.LobbyId row = message.LobbyId msg
    /\ message.SenderName row = message.SenderName msg
    /\ message.MessageString row = message.MessageString msg
    /\ message.Timestamp row = now
    /\ Sql.message (Sql.db w') = Sql.message (Sql.db w) ++ [row]
    /\ Sql.lobbies (Sql.db w') = Sql.lobbies (Sql.db w)
    /\ Sql.sender (Sql.db w') = Sql.sender (Sql.db w).
Proof.
  intros H Hlen Hin. unfold Sql.postMessage.
  destruct (Nat.ltb_spec Sql.MAX_MSG_LEN
              (String.length (message.MessageString msg))); [lia|].
  unfold mbind, Sql.M_bind.
  rewrite doesLobbyExist_healthy, bool_decide_eq_true_2 by done. simpl.
  unfold Sql.appendMessage, mbind, Sql.M_bind.
  rewrite call_healthy by done. simpl.
  rewrite constructLobbyData_healthy; [|done..].
  eexists _, _, _, _. split; [reflexivity|]. simpl.
  split; [done|]. split; [reflexivity|]. split.
  - rewrite filter_app, filter_cons, decide_True, filter_nil by done.
    apply last_snoc.
  - by repeat split.
Qed.

Lemma sql_postMessage_stores_witness :
  exists row,
    Sql.message (Sql.db (snd (Sql.postMessage 9 (Some Sample.hello)
                                              Sample.w_alice))) = [row]
    /\ message.Timestamp row = 9.
Proof.
  destruct (sql_postMessage_stores Sample.w_alice 9 Sample.hello)
    as (d & msgs & row & w' & Heq & _ & _ & _ & _ & _ & _ & Ht & Hm & _).
  - intros k. reflexivity.
  - vm_compute. lia.
  - vm_compute. left.
  - exists row. rewrite Heq. split; [exact Hm|exact Ht].
Defined.

End SqlSenders.

(** ** What the database handlers do to the tables *)

Section SqlEffects.
Import Sql.

(** Code that only queries leaves the tables as they are, answered or
    not. *)
Lemma doesLobbyExist_reads id w : db (snd (doesLobbyExist id w)) = db w.
Proof. by rewrite sql_doesLobbyExist_cases. Qed.

Lemma call_query_reads {A} (q : database -> A) w :
  db (snd (call (fun d => (q d, d)) w)) = db w.
Proof. unfold call. by destruct (faults w (calls w)). Qed.

Lemma getMessagesFor_reads id w : db (snd (getMessagesFor id w)) = db w.
Proof.
  unfold getMessagesFor, select_message, mbind, M_bind.
  pose proof (call_query_reads
    (fun d => filter (fun m => message.LobbyId m = id) (message d)) w) as H.
  destruct (call _ w) as [[rows|err] w']; exact H.
Qed.

Lemma getSendersFor_reads id w : db (snd (getSendersFor id w)) = db w.
Proof.
  unfold getSendersFor, select_sender, mbind, M_bind.
  pose proof (call_query_reads
    (fun d => filter (fun s => sender.LobbyId s = id) (sender d)) w) as H.
  destruct (call _ w) as [[rows|err] w']; exact H.
Qed.

Lemma constructLobbyData_reads id w :
  db (snd (constructLobbyData id w)) = db w.
Proof.
  unfold constructLobbyData, mbind, M_bind.
  pose proof (doesLobbyExist_reads id w) as H0.
  destruct (doesLobbyExist id w) as [ok w0]. simpl in H0.
  destruct ok; simpl; [|done].
  pose proof (getMessagesFor_reads id w0) as H1.
  destruct (getMessagesFor id w0) as [[msgs msgerr] w1]. simpl in H1.
  pose proof (getSendersFor_reads id w1) as H2.
  destruct (getSendersFor id w1) as [[snds sendererr] w2]. simpl in H2.
  destruct msgerr, sendererr; simpl; congruence.
Qed.

Lemma createLobby_loop_reads src n id k w :
  db (snd (createLobby_loop src n id k w)) = db w.
Proof.
  revert id k w. induction n as [|n IH]; intros id k w;
    cbn [createLobby_loop]; unfold mbind, M_bind;
    pose proof (doesLobbyExist_reads id w) as H0;
    destruct (doesLobbyExist id w) as [ok w0]; simpl in H0; [done|].
  destruct ok; [|done].
  destruct (randSeq src k LOBBY_ID_LENGTH) as [id' k'].
  by rewrite IH.
Qed.

(** The end of a handler that builds the view: the tables are those the
    view builder was given. *)
Ltac view_tail :=
  match goal with
  | |- context [constructLobbyData ?id ?w] =>
      let H := fresh "Hview" in
      pose proof (constructLobbyData_reads id w) as H;
      destruct (constructLobbyData id w) as [[? [?|]] ?];
      simpl in *; rewrite H
  end.

(** [doesLobbyExist] says yes only for a lobby that has a row. *)
Lemma doesLobbyExist_yes id w w' :
  doesLobbyExist id w = (true, w') -> id ∈ lobbies (db w) /\ db w' = db w.
Proof.
  rewrite sql_doesLobbyExist_cases.
  destruct (faults w (calls w)); [done|].
  intros [= Hin <-]. split; [|done]. by apply bool_decide_eq_true_1 in Hin.
Qed.

Lemma addSender_effect enterReq w :
  sender.LobbyId enterReq ∈ lobbies (db w) ->
  effect (db w) (db (snd (addSender enterReq w))).
Proof.
  intros Hin. unfold addSender, senderExists, mbind, M_bind, count_sender.
  unfold call at 1.
  destruct (faults w (calls w)) as [err|]; simpl.
  - unfold call. simpl. destruct (faults w (S (calls w))); simpl.
    + constructor.
    + by apply (sender_inserted (db w)).
  - destruct (_ =? 0); simpl; [|constructor].
    unfold call. simpl. destruct (faults w (S (calls w))); simpl.
    + constructor.
    + by apply (sender_inserted (db w)).
Qed.

(** Whatever the request, whatever the replies, and whichever database
    calls fail, a handler does one of five things to the tables: nothing;
    insert one lobby row; insert one message row for a lobby that has a
    row; insert one sender row, with [isTyping] false, for a lobby that has
    a row; or rewrite the [isTyping] of the rows of one (name, lobby)
    pair. *)
Lemma sql_handle_effect rq w : effect (db w) (db (snd (handle rq w))).
Proof.
  destruct rq as [id|now body|id|src|body|body]; simpl.
  - unfold fetchLobbyData, mbind, M_bind.
    pose proof (constructLobbyData_reads id w) as H.
    destruct (constructLobbyData id w) as [[d [err|]] w']; simpl in *;
      rewrite H; constructor.
  - unfold postMessage. destruct body as [msg|]; [|constructor].
    destruct (_ <? _)%nat; [constructor|].
    unfold mbind, M_bind.
    destruct (doesLobbyExist (message.LobbyId msg) w) as [[|] w0] eqn:Hex.
    + apply doesLobbyExist_yes in Hex as [Hin H0]. simpl.
      unfold appendMessage, mbind, M_bind.
      assert (Hins : effect (db w)
                (db (snd (call (insert_message (message.LobbyId msg)
                                  (message.SenderName msg)
                                  (message.MessageString msg) now) w0)))).
      { unfold call. destruct (faults w0 (calls w0)); simpl; rewrite H0.
        - constructor.
        - by constructor. }
      destruct (call _ w0) as [[[]|err] w1]; simpl in *.
      * pose proof (constructLobbyData_reads (message.LobbyId msg) w1) as H.
        destruct (constructLobbyData _ w1) as [[d [e|]] w2]; simpl in *;
          by rewrite H.
      * pose proof (constructLobbyData_reads (message.LobbyId msg) w1) as H.
        destruct (constructLobbyData _ w1) as [[d [e|]] w2]; simpl in *;
          by rewrite H.
    + simpl. rewrite <- (doesLobbyExist_reads (message.LobbyId msg) w), Hex.
      constructor.
  - unfold lobbyExists, mbind, M_bind.
    pose proof (doesLobbyExist_reads id w) as H.
    destruct (doesLobbyExist id w) as [[|] w']; simpl in *;
      rewrite H; constructor.
  - unfold createLobby.
    destruct (randSeq src 0 LOBBY_ID_LENGTH) as [id k].
    unfold mbind, M_bind.
    pose proof (createLobby_loop_reads src 10 id k w) as H.
    destruct (createLobby_loop src 10 id k w) as [[id' attempts] w0].
    simpl in H. destruct (attempts =? 0)%nat; simpl;
      [rewrite H; constructor|].
    unfold insertLobby, mbind, M_bind, call.
    destruct (faults w0 (calls w0)); simpl; rewrite H; constructor.
  - unfold enterLobby. destruct body as [enterReq|]; [|constructor].
    unfold mbind, M_bind.
    destruct (doesLobbyExist (sender.LobbyId enterReq) w)
      as [[|] w0] eqn:Hex.
    + apply doesLobbyExist_yes in Hex as [Hin H0]. simpl.
      destruct (_ <? _)%nat; simpl; [rewrite H0; constructor|].
      pose proof (addSender_effect enterReq w0) as Hadd.
      rewrite H0 in Hadd. specialize (Hadd Hin).
      destruct (addSender enterReq w0) as [[e|] w1]; simpl in *; [done|].
      by view_tail.
    + simpl.
      rewrite <- (doesLobbyExist_reads (sender.LobbyId enterReq) w), Hex.
      constructor.
  - unfold updateTyping. destruct body as [request|]; [|constructor].
    unfold setTyping, mbind, M_bind, call.
    destruct (faults w (calls w)); simpl; constructor.
Qed.

Lemma sql_run_ind (P : database -> database -> Prop) :
  (forall d, P d d) ->
  (forall d d1 d2, effect d d1 -> P d1 d2 -> P d d2) ->
  forall rqs w, P (db w) (db (run rqs w)).
Proof.
  intros Hrefl Hstep rqs. induction rqs as [|rq rqs IH]; intros w; simpl.
  - apply Hrefl.
  - apply (Hstep _ (db (snd (handle rq w)))); [apply sql_handle_effect|].
    apply IH.
Qed.

Lemma update_sender_keys isTyping lobbyId name d :
  sender_key <$> sender (snd (update_sender isTyping lobbyId name d))
  = sender_key <$> sender d.
Proof.
  unfold update_sender. simpl. rewrite <- list_fmap_compose.
  apply list_fmap_ext. intros i s _. simpl. by destruct (decide _).
Qed.

Lemma sql_effect_grows d d' :
  effect d d' ->
  (exists more, lobbies d' = lobbies d ++ more)
  /\ (exists more, message d' = message d ++ more)
  /\ (exists more, sender_key <$> sender d'
                    = (sender_key <$> sender d) ++ more).
Proof.
  intros [|id|l n b t Hin|n l Hin|b l n].
  - repeat split; exists []; by rewrite app_nil_r.
  - simpl. split; [by eexists|]. split; exists []; by rewrite app_nil_r.
  - simpl. split; [exists []; by rewrite app_nil_r|].
    split; [by eexists|]. exists []. by rewrite app_nil_r.
  - simpl. split; [exists []; by rewrite app_nil_r|].
    split; [exists []; by rewrite app_nil_r|].
    eexists. by rewrite fmap_app.
  - rewrite update_sender_keys. simpl.
    repeat split; exists []; by rewrite app_nil_r.
Qed.

(** X19.  Over any history of requests, and whichever database calls fail
    on the way, the tables only grow: [lobbies] and [message] are extended
    at the end with the earlier rows unchanged, and so is the list of
    (name, lobby) pairs of [sender].  No handler deletes a row, rewrites a
    message, or changes the name or lobby of a sender. *)
Theorem sql_history_only_grows (rqs : list request) (w : world) :
  (exists more, lobbies (db (run rqs w)) = lobbies (db w) ++ more)
  /\ (exists more, message (db (run rqs w)) = message (db w) ++ more)
  /\ (exists more, sender_key <$> sender (db (run rqs w))
                    = (sender_key <$> sender (db w)) ++ more).
Proof.
  revert rqs w.
  apply (sql_run_ind (fun d d' =>
    (exists more, lobbies d' = lobbies d ++ more)
    /\ (exists more, message d' = message d ++ more)
    /\ (exists more, sender_key <$> sender d'
                      = (sender_key <$> sender d) ++ more))).
  - intros d. repeat split; exists []; by rewrite app_nil_r.
  - intros d d1 d2 Heff ([l2 Hl2] & [m2 Hm2] & [s2 Hs2]).
    apply sql_effect_grows in Heff as ([l1 Hl1] & [m1 Hm1] & [s1 Hs1]).
    split; [|split].
    + exists (l1 ++ l2). by rewrite Hl2, Hl1, app_assoc.
    + exists (m1 ++ m2). by rewrite Hm2, Hm1, app_assoc.
    + exists (s1 ++ s2). by rewrite Hs2, Hs1, app_assoc.
Qed.

Lemma sql_effect_refs d d' :
  effect d d' -> refs_resolve d -> refs_resolve d'.
Proof.
  intros Heff [Hm Hs].
  destruct Heff as [|id|l n b t Hin|n l Hin|b l n]; [done|..];
    split; simpl.
  - intros m Hmem. apply elem_of_app. left. by apply Hm.
  - intros s Hmem. apply elem_of_app. left. by apply Hs.
  - intros m [Hmem|Hmem]%elem_of_app; [by apply Hm|].
    by apply list_elem_of_singleton in Hmem as ->.
  - done.
  - done.
  - intros s [Hmem|Hmem]%elem_of_app; [by apply Hs|].
    by apply list_elem_of_singleton in Hmem as ->.
  - done.
  - intros s (s0 & -> & Hmem)%list_elem_of_fmap.
    destruct (decide _); simpl; by apply Hs.
Qed.

(** X20.  Referential integrity survives failures.  If every message row
    and every sender row names a lobby that has a row, this is still so
    after any history of requests, whichever database calls fail: a row is
    inserted only after the existence query was answered and found the
    lobby.  In particular it holds for every history that starts from
    empty tables. *)
Theorem sql_refs_resolve (rqs : list request) (w : world) :
  refs_resolve (db w) ->
  (forall m, m ∈ message (db (run rqs w)) ->
             message.LobbyId m ∈ lobbies (db (run rqs w)))
  /\ (forall s, s ∈ sender (db (run rqs w)) ->
                sender.LobbyId s ∈ lobbies (db (run rqs w))).
Proof.
  revert rqs w.
  apply (sql_run_ind (fun d d' => refs_resolve d -> refs_resolve d')).
  - auto.
  - intros d d1 d2 Heff IH Hd. by apply IH, (sql_effect_refs d).
Qed.

Lemma sql_refs_resolve_witness :
  message.LobbyId (message.mk 1 "aaaaaa" "alice" "hello" 3)
    ∈ lobbies (db (run [CreateLobby Sample.always_a;
                        PostMessage 3 (Some Sample.hello);
                        PostMessage 4 (Some Sample.hello)]
                       (mkWorld empty_db Sample.no_faults 0))).
Proof.
  destruct (sql_refs_resolve
              [CreateLobby Sample.always_a;
               PostMessage 3 (Some Sample.hello);
               PostMessage 4 (Some Sample.hello)]
              (mkWorld empty_db Sample.no_faults 0)) as [Hm _].
  - split; intros x Hx; vm_compute in Hx; inversion Hx.
  - apply Hm. vm_compute. left.
Defined.

End SqlEffects.
